(** * unarch: format detection and extraction dispatch

    A shallow embedding of [main.go] (the current revision, the one with
    zstd support and the extension fallback) and the properties its
    specification states about it.

    Layout:
    - [Bytes]     : byte slices, [bytes.HasPrefix], zero-filled buffers;
    - [Filepath]  : the functions of [path/filepath] the program calls
                    ([Ext], [Base], [Dir], [Clean], [Join]), Unix flavour;
    - [Os]        : a file tree keyed by resolved paths, with [os.Open],
                    [File.Read], [os.MkdirAll], [os.Create], [os.OpenFile];
    - [Unarch]    : [detectArchiveType], [unzip], [untar],
                    [extractSingleFile], [extractWith7z] and [main];
    - the specification tables and the theorems. *)

From Stdlib Require Import ZArith Ascii String List Bool Lia.
From Stdlib.Strings Require Import Byte.
From stdpp Require Import base option list strings gmap.

Local Open Scope string_scope.
Local Open Scope list_scope.

(** ** Byte slices *)

Module Bytes.

Definition byte_eqb (a b : byte) : bool := Byte.eqb a b.

(** [bytes.HasPrefix(s, prefix)]: [len(s) >= len(prefix)] and the first
    [len(prefix)] bytes of [s] equal [prefix]. *)
Fixpoint HasPrefix (s prefix : list byte) {struct prefix} : bool :=
  match prefix, s with
  | [], _ => true
  | _ :: _, [] => false
  | p :: prefix', b :: s' => byte_eqb b p && HasPrefix s' prefix'
  end.

(** [make([]byte, n)]: [n] zero bytes. *)
Definition make (n : nat) : list byte := replicate n x00.

(** [copy(buf, src)] on a buffer of [n] zero bytes: the first
    [min n (len src)] bytes come from [src], the others keep their zero. *)
Definition fill (n : nat) (src : list byte) : list byte :=
  take n src ++ make (n - length src).

End Bytes.

(** ** [path/filepath] (Unix: the separator is [/], there is no volume name)

    The program calls [filepath.Ext], [filepath.Base], [filepath.Dir] and
    [filepath.Join]; [Join] and [Dir] go through [filepath.Clean].  The
    loops of the library scan the path from its end, so the model walks the
    reversed list of characters. *)

Module Filepath.

Definition Separator : ascii := "/"%char.
Definition IsPathSeparator (c : ascii) : bool := Ascii.eqb c Separator.
Definition is_dot (c : ascii) : bool := Ascii.eqb c "."%char.

Definition chars (s : string) : list ascii := list_ascii_of_string s.
Definition str (l : list ascii) : string := string_of_list_ascii l.

(** [for i := len(path)-1; i >= 0 && !IsPathSeparator(path[i]); i--
      { if path[i] == '.' { return path[i:] } }; return ""].
    [before] is [path[:i+1]] reversed, [after] is [path[i+1:]]. *)
Fixpoint ext_loop (before after : list ascii) : string :=
  match before with
  | [] => ""
  | c :: before' =>
      if IsPathSeparator c then ""
      else if is_dot c then str (c :: after)
      else ext_loop before' (c :: after)
  end.

Definition Ext (path : string) : string := ext_loop (rev (chars path)) [].

Fixpoint strip_seps (r : list ascii) : list ascii :=
  match r with
  | c :: r' => if IsPathSeparator c then strip_seps r' else r
  | [] => []
  end.

(** The characters of [r] up to its first separator, [r] being a reversed
    path: the last element of the path, reversed. *)
Fixpoint last_elem (r : list ascii) : list ascii :=
  match r with
  | c :: r' => if IsPathSeparator c then [] else c :: last_elem r'
  | [] => []
  end.

(** What is left of [r] from its first separator on: the path up to and
    including its last separator, reversed. *)
Fixpoint upto_sep (r : list ascii) : list ascii :=
  match r with
  | c :: r' => if IsPathSeparator c then r else upto_sep r'
  | [] => []
  end.

(** [filepath.Base]: [""] gives ["."]; trailing separators are stripped;
    the last element is returned, or ["/"] when only separators were
    there. *)
Definition Base (path : string) : string :=
  if String.eqb path "" then "."
  else
    match last_elem (strip_seps (rev (chars path))) with
    | [] => "/"
    | e => str (rev e)
    end.

(** Splitting on the separator: ["a//b"] gives [["a"; ""; "b"]]. *)
Fixpoint elements (p : string) : list string :=
  match p with
  | EmptyString => [""]
  | String c r =>
      if IsPathSeparator c then "" :: elements r
      else match elements r with
           | e :: es => String c e :: es
           | [] => [String c ""]
           end
  end.

(** One turn of the loop of [filepath.Clean], on the element [e].  [out]
    is the output buffer as a stack of elements, last written first.  An
    empty element and ["."] are dropped; [".."] removes the last element
    written unless that one is itself a [".."] kept by a path that is not
    rooted ([out.w > dotdot] fails), and then it is kept (not rooted) or
    dropped (rooted). *)
Definition clean_step (rooted : bool) (out : list string) (e : string)
  : list string :=
  if String.eqb e "" || String.eqb e "." then out
  else if String.eqb e ".." then
    match out with
    | top :: below => if String.eqb top ".." then e :: out else below
    | [] => if rooted then [] else [e]
    end
  else e :: out.

Definition clean_loop (rooted : bool) (out : list string) (elems : list string)
  : list string :=
  rev (fold_left (clean_step rooted) elems out).

Definition is_rooted (path : string) : bool :=
  match path with
  | String c _ => IsPathSeparator c
  | EmptyString => false
  end.

(** [strings.Join(elems, sep)]. *)
Fixpoint strings_Join (elems : list string) (sep : string) : string :=
  match elems with
  | [] => ""
  | [e] => e
  | e :: es => e +:+ sep +:+ strings_Join es sep
  end.

(** A cleaned path written out: the leading separator of a rooted path,
    the elements separated by [/], and ["."] for the empty relative path. *)
Definition render (rooted : bool) (elems : list string) : string :=
  if rooted then "/" +:+ strings_Join elems "/"
  else match elems with
       | [] => "."
       | _ => strings_Join elems "/"
       end.

Definition clean_elems (path : string) : list string :=
  clean_loop (is_rooted path) [] (elements path).

Definition Clean (path : string) : string :=
  if String.eqb path "" then "."
  else render (is_rooted path) (clean_elems path).

(** [filepath.Join]: the elements from the first one that is not empty
    are joined with the separator and the result is cleaned; all empty,
    the result is empty. *)
Fixpoint Join (elem : list string) : string :=
  match elem with
  | [] => ""
  | e :: rest =>
      if String.eqb e "" then Join rest
      else Clean (strings_Join elem "/")
  end.

(** [filepath.Dir]: the path up to and including its last separator,
    cleaned. *)
Definition Dir (path : string) : string :=
  Clean (str (rev (upto_sep (rev (chars path))))).

(** *** Cleaned paths *)

Definition plain_char (c : ascii) : Prop :=
  IsPathSeparator c = false /\ is_dot c = false.

Definition no_sep (e : string) : Prop :=
  Forall (fun c => IsPathSeparator c = false) (chars e).

(** An element that names a file or a directory. *)
Definition name_elem (e : string) : Prop :=
  e <> "" /\ e <> "." /\ e <> ".." /\ no_sep e.

(** The elements of a cleaned path: some [".."] first, none when the
    path is rooted, then names. *)
Definition clean_form (rooted : bool) (elems : list string) : Prop :=
  exists n names,
    elems = replicate n ".." ++ names /\ Forall name_elem names /\
    (rooted = true -> n = 0%nat).

(** The same for the output buffer of the loop, last element first. *)
Definition stack_form (rooted : bool) (out : list string) : Prop :=
  exists n names,
    out = names ++ replicate n ".." /\ Forall name_elem names /\
    (rooted = true -> n = 0%nat).

End Filepath.

(** ** Package [os]: errors, the file tree, files

    Paths are resolved lexically, the way [filepath.Clean] reads them (no
    symbolic links): a resolved path is the flag "rooted" and the list of
    elements.  The working directory (no element, not rooted) and the root
    (no element, rooted) always exist.  The empty path names no file. *)

Module Os.

Inductive Errno := ENOENT | ENOTDIR | EISDIR | EEXIST.

Definition errno_message (e : Errno) : string :=
  match e with
  | ENOENT => "no such file or directory"
  | ENOTDIR => "not a directory"
  | EISDIR => "is a directory"
  | EEXIST => "file exists"
  end.

(** Go's [error] values the program meets: [*fs.PathError] from package
    [os], [io.EOF], and the ones made from a message ([fmt.Errorf], the
    archive and compression libraries, [os/exec]). *)
Inductive error :=
| PathError (op : string) (path : string) (err : Errno)
| EOF
| errorString (msg : string).

Definition Error (e : error) : string :=
  match e with
  | PathError op path err => op +:+ " " +:+ path +:+ ": " +:+ errno_message err
  | EOF => "EOF"
  | errorString msg => msg
  end.

Definition rpath : Type := bool * list string.

Definition resolve (name : string) : option rpath :=
  if String.eqb name "" then None
  else Some (Filepath.is_rooted name, Filepath.clean_elems name).

Definition parent (k : rpath) : rpath := (k.1, removelast k.2).

(** [FileMode]: permission bits in the low 9 bits, [ModeDir] at bit 31,
    [ModeSetuid], [ModeSetgid] and [ModeSticky] at bits 23, 22 and 20. *)
Definition ModePerm : Z := 511.  (* 0o777 *)
Definition ModeDir : Z := Z.shiftl 1 31.
Definition ModeSetuid : Z := Z.shiftl 1 23.
Definition ModeSetgid : Z := Z.shiftl 1 22.
Definition ModeSticky : Z := Z.shiftl 1 20.

Definition IsDir (m : Z) : bool := negb (Z.eqb (Z.land m ModeDir) 0).

(** [syscallMode]: the permission bits, and the three special bits moved
    to their Unix places (0o4000, 0o2000, 0o1000). *)
Definition syscallMode (i : Z) : Z :=
  let o := Z.land i ModePerm in
  let o := if Z.eqb (Z.land i ModeSetuid) 0 then o else Z.lor o 2048 in
  let o := if Z.eqb (Z.land i ModeSetgid) 0 then o else Z.lor o 1024 in
  let o := if Z.eqb (Z.land i ModeSticky) 0 then o else Z.lor o 512 in
  o.

Inductive node :=
| Directory (mode : Z)
| Regular (mode : Z) (data : list byte).

(** What reaches the terminal: a line of [fmt.Println], or the output of
    a child process whose standard output is the program's. *)
Inductive output :=
| Line (s : string)
| Child (bytes : list byte).

(** What the program can see and change: the file tree, the umask of the
    process, the commands it has started through [os/exec] and what it
    has put on the terminal, both in order. *)
Record World := mkWorld {
  tree : gmap (bool * list string) node;
  umask : Z;
  spawned : list (string * list string);
  terminal : list output
}.

Definition with_tree (w : World) (t : gmap (bool * list string) node) : World :=
  {| tree := t; umask := umask w; spawned := spawned w; terminal := terminal w |}.

Definition Println (s : string) (w : World) : World :=
  {| tree := tree w; umask := umask w; spawned := spawned w;
     terminal := terminal w ++ [Line s] |}.

Definition stat (w : World) (k : rpath) : option node :=
  match k.2 with
  | [] => Some (Directory ModePerm)
  | _ => tree w !! k
  end.

(** The error of the walk to a path that is not there: the walk goes
    down from the anchor, element by element, and ends with [ENOTDIR] at
    a regular file, with [ENOENT] at a name that is missing. *)
Fixpoint walk_errno (w : World) (rooted : bool) (seen rest : list string) : Errno :=
  match rest with
  | [] => ENOENT
  | e :: rest' =>
      match stat w (rooted, seen ++ [e]) with
      | Some (Directory _) => walk_errno w rooted (seen ++ [e]) rest'
      | Some (Regular _ _) => ENOTDIR
      | None => ENOENT
      end
  end.

Definition missing_errno (w : World) (k : rpath) : Errno :=
  walk_errno w k.1 [] k.2.

Definition is_dir (w : World) (k : rpath) : Prop :=
  exists m, stat w k = Some (Directory m).

(** Every file and directory of the tree lies in a directory. *)
Definition well_formed (w : World) : Prop :=
  forall k n, tree w !! k = Some n -> is_dir w (parent k).

(** No regular file lies above [k]. *)
Definition clear_above (w : World) (k : rpath) : Prop :=
  forall p m d, p `prefix_of` k.2 -> p <> k.2 -> stat w (k.1, p) <> Some (Regular m d).

(** The three as tests that run, for trees given in full. *)
Definition is_dirb (w : World) (k : rpath) : bool :=
  match stat w k with Some (Directory _) => true | _ => false end.

Definition well_formedb (w : World) : bool :=
  forallb (fun kn => is_dirb w (parent kn.1)) (map_to_list (tree w)).

Fixpoint prefixes (l : list string) : list (list string) :=
  [] :: match l with
        | [] => []
        | x :: l' => map (cons x) (prefixes l')
        end.

Definition clear_aboveb (w : World) (k : rpath) : bool :=
  forallb (fun p => bool_decide (p = k.2) ||
                    match stat w (k.1, p) with
                    | Some (Regular _ _) => false
                    | _ => true
                    end)
          (prefixes k.2).

(** The mode a new file or directory gets: [mode &^ umask]. *)
Definition created_mode (w : World) (perm : Z) : Z :=
  Z.ldiff (syscallMode perm) (umask w).

(** An open file: the name it was opened under and what was found. *)
Record File := mkFile { file_name : string; file_node : node }.

Definition Open (w : World) (name : string) : File + error :=
  match resolve name with
  | None => inr (PathError "open" name ENOENT)
  | Some k =>
      match stat w k with
      | None => inr (PathError "open" name (missing_errno w k))
      | Some n => inl (mkFile name n)
      end
  end.

(** [f.Read(buf)] on a file just opened, [buf] being [n] zero bytes: the
    buffer afterwards, the count, the error.  At the end of the file the
    count is 0 and the error [io.EOF]; a directory cannot be read. *)
Definition Read (f : File) (n : nat) : list byte * nat * option error :=
  match file_node f with
  | Directory _ => (Bytes.make n, 0%nat, Some (PathError "read" (file_name f) EISDIR))
  | Regular _ data =>
      match n, data with
      | O, _ => ([], 0%nat, None)
      | _, [] => (Bytes.make n, 0%nat, Some EOF)
      | _, _ => (Bytes.fill n data, Nat.min n (length data), None)
      end
  end.

(** The whole content, for the readers that wrap the file. *)
Definition contents (f : File) : list byte + error :=
  match file_node f with
  | Directory _ => inr (PathError "read" (file_name f) EISDIR)
  | Regular _ data => inl data
  end.

(** [os.Mkdir] on a resolved path. *)
Definition mkdir_at (name : string) (k : rpath) (perm : Z) (w : World)
  : World * option error :=
  match stat w k with
  | Some _ => (w, Some (PathError "mkdir" name EEXIST))
  | None =>
      match stat w (parent k) with
      | None => (w, Some (PathError "mkdir" name (missing_errno w (parent k))))
      | Some (Regular _ _) => (w, Some (PathError "mkdir" name ENOTDIR))
      | Some (Directory _) =>
          (with_tree w (<[k := Directory (created_mode w perm)]> (tree w)), None)
      end
  end.

(** [os.MkdirAll]: nothing to do when the path is a directory already, an
    error when it is a file; otherwise the parent first, then [Mkdir].
    [relems] is the list of elements reversed, so that the parent is its
    tail. *)
Fixpoint mkdir_all (name : string) (rooted : bool) (relems : list string)
    (perm : Z) (w : World) : World * option error :=
  let k := (rooted, rev relems) in
  match stat w k with
  | Some (Directory _) => (w, None)
  | Some (Regular _ _) => (w, Some (PathError "mkdir" name ENOTDIR))
  | None =>
      match relems with
      | [] => (w, None)
      | _ :: up =>
          match mkdir_all name rooted up perm w with
          | (w1, Some e) => (w1, Some e)
          | (w1, None) => mkdir_at name k perm w1
          end
      end
  end.

Definition MkdirAll (name : string) (perm : Z) (w : World) : World * option error :=
  match resolve name with
  | None => (w, Some (PathError "mkdir" name ENOENT))
  | Some k => mkdir_all name k.1 (rev k.2) perm w
  end.

(** [os.OpenFile(name, O_WRONLY|O_CREATE|O_TRUNC, perm)] (and the same
    with [O_RDWR]): an existing file is emptied and keeps its mode, a
    missing one is created in its parent directory with [perm &^ umask];
    without that directory the error is the one of the walk to it.
    The open file is returned as the resolved path to write to. *)
Definition OpenFile (name : string) (perm : Z) (w : World) : World * (rpath + error) :=
  match resolve name with
  | None => (w, inr (PathError "open" name ENOENT))
  | Some k =>
      match stat w k with
      | Some (Directory _) => (w, inr (PathError "open" name EISDIR))
      | Some (Regular m _) =>
          (with_tree w (<[k := Regular m []]> (tree w)), inl k)
      | None =>
          match stat w (parent k) with
          | None => (w, inr (PathError "open" name (missing_errno w (parent k))))
          | Some (Regular _ _) => (w, inr (PathError "open" name ENOTDIR))
          | Some (Directory _) =>
              (with_tree w (<[k := Regular (created_mode w perm) []]> (tree w)), inl k)
          end
      end
  end.

(** [os.Create(name)] is [OpenFile(name, O_RDWR|O_CREATE|O_TRUNC, 0666)]. *)
Definition Create (name : string) (w : World) : World * (rpath + error) :=
  OpenFile name 438 w.

(** Writing [data] to the open file [k], from its start. *)
Definition write (k : rpath) (data : list byte) (w : World) : World :=
  match tree w !! k with
  | Some (Regular m _) => with_tree w (<[k := Regular m data]> (tree w))
  | _ => w
  end.

(** [io.Copy(outFile, src)]: [src] delivers [data] and then ends, with
    [io.EOF] (no error for [Copy]) or with an error. *)
Definition Copy (k : rpath) (src : list byte * option error) (w : World)
  : World * option error :=
  (write k src.1 w, src.2).

End Os.

(** ** The archive and compression libraries, and [os/exec]

    Their decoding is not the program's: the program is taken over any
    behaviour of theirs.  A tar reader is what [Next] and the copy of an
    entry's body deliver, in order; a zip reader is the list of the files of
    the central directory. *)

Module Tar.

Definition TypeReg : byte := x30.  (* '0' *)
Definition TypeDir : byte := x35.  (* '5' *)

Record Header := mkHeader { Name : string; Typeflag : byte; Mode : Z }.

(** [Entry h body rest]: [Next] returns [h]; copying the entry delivers
    the bytes [body.1] and ends with the error [body.2], if any; [rest]
    is what [Next] meets afterwards (the body skipped or read to its
    end). *)
Inductive Stream :=
| AtEOF
| Fail (err : Os.error)
| Entry (h : Header) (body : list byte * option Os.error) (rest : Stream).

(** The same stream with the modes of its headers replaced. *)
Fixpoint with_modes (f : Header -> Z) (s : Stream) : Stream :=
  match s with
  | AtEOF => AtEOF
  | Fail err => Fail err
  | Entry h body rest =>
      Entry (mkHeader (Name h) (Typeflag h) (f h)) body (with_modes f rest)
  end.

End Tar.

Module Zip.

(** A file of the archive: [f.Name], [f.Mode()], and what [f.Open()] and
    the copy of its content give. *)
Record File := mkFile {
  Name : string;
  Mode : Z;
  Open : (list byte * option Os.error) + Os.error
}.

End Zip.

Module Exec.

(** A child process that ran to its end: its standard output, the file
    tree it leaves, and the error of [cmd.Run()] (the command not found,
    an exit status that is not zero). *)
Record Process := mkProcess {
  Stdout : list byte;
  after : gmap (bool * list string) Os.node;
  status : option Os.error
}.

End Exec.

(** The readers the program wraps around the source file. *)
Inductive filter := Plain | Gzip | Bzip2 | Xz | Zstd.

Class Libraries := {
  (** [zip.OpenReader], on the bytes of the file *)
  zip_OpenReader : list byte -> list Zip.File + Os.error;
  (** the errors of [gzip.NewReader], [xz.NewReader], [zstd.NewReader] *)
  gzip_NewReader : list byte -> option Os.error;
  xz_NewReader : list byte -> option Os.error;
  zstd_NewReader : list byte -> option Os.error;
  (** [tar.NewReader] on the file read through the filter *)
  tar_NewReader : filter -> list byte -> Tar.Stream;
  (** [exec.Command(name, args...).Run()] in a file tree *)
  exec_Run : string -> list string -> gmap (bool * list string) Os.node -> Exec.Process
}.

(** ** The program *)

Module Unarch.

Import Os.

Definition is_EOF (e : error) : bool :=
  match e with EOF => true | _ => false end.

(** The [switch] of [detectArchiveType] on the 16 bytes read. *)
Definition detect_magic (buf : list byte) : option string :=
  if Bytes.HasPrefix buf [x50; x4b] (* "PK" *) then Some "zip"
  else if Bytes.HasPrefix buf [x1f; x8b] then Some "tar.gz"
  else if Bytes.HasPrefix buf [x42; x5a; x68] then Some "tar.bz2"
  else if Bytes.HasPrefix buf [xfd; x37; x7a; x58; x5a; x00] then Some "tar.xz"
  else if Bytes.HasPrefix buf [x52; x61; x72; x21] then Some "rar"
  else if Bytes.HasPrefix buf [x37; x7a; xbc; xaf; x27; x1c] then Some "7z"
  else if Bytes.HasPrefix buf [x28; xb5; x2f; xfd] then Some "tar.zst"
  else None.

(** The inner [switch ext]. *)
Definition detect_ext (ext : string) : string + error :=
  if String.eqb ext ".gz" then inl "gz"
  else if String.eqb ext ".bz2" then inl "bz2"
  else if String.eqb ext ".xz" then inl "xz"
  else if String.eqb ext ".lz" then inl "lz"
  else if String.eqb ext ".lzma" then inl "lzma"
  else if String.eqb ext ".zst" then inl "zst"
  else if String.eqb ext ".tar" then inl "tar"
  else if String.eqb ext ".tar.lz" then inl "tar.lz"
  else if String.eqb ext ".tar.lzma" then inl "tar.lzma"
  else inr (errorString "unknown archive type").

(** The outer [switch], its [default] being the switch on the extension. *)
Definition detect_switch (buf : list byte) (filePath : string) : string + error :=
  match detect_magic buf with
  | Some t => inl t
  | None => detect_ext (Filepath.Ext filePath)
  end.

Definition detectArchiveType (w : World) (filePath : string) : string + error :=
  match Open w filePath with
  | inr err => inr err
  | inl f =>
      let '(buf, _, err) := Read f 16 in
      match err with
      | Some e => if is_EOF e then detect_switch buf filePath else inr e
      | None => detect_switch buf filePath
      end
  end.

Section Strategies.

Context {L : Libraries}.

(** The body of the loop of [unzip], for one file of the archive. *)
Definition unzip_file (dest : string) (f : Zip.File) (w : World)
  : World * option error :=
  let fpath := Filepath.Join [dest; Zip.Name f] in
  if IsDir (Zip.Mode f) then ((MkdirAll fpath ModePerm w).1, None)
  else
    let w := (MkdirAll (Filepath.Dir fpath) ModePerm w).1 in
    match OpenFile fpath (Zip.Mode f) w with
    | (w, inr err) => (w, Some err)
    | (w, inl outFile) =>
        match Zip.Open f with
        | inr err => (w, Some err)
        | inl rc => Copy outFile rc w
        end
    end.

Fixpoint unzip_loop (dest : string) (files : list Zip.File) (w : World)
  : World * option error :=
  match files with
  | [] => (w, None)
  | f :: files' =>
      match unzip_file dest f w with
      | (w, Some err) => (w, Some err)
      | (w, None) => unzip_loop dest files' w
      end
  end.

Definition unzip (src dest : string) (w : World) : World * option error :=
  match Open w src with
  | inr err => (w, Some err)
  | inl f =>
      match contents f with
      | inr err => (w, Some err)
      | inl data =>
          match zip_OpenReader data with
          | inr err => (w, Some err)
          | inl files => unzip_loop dest files w
          end
      end
  end.

(** The [switch] of [untar] on the 6 bytes read. *)
Definition untar_filter (buf : list byte) : filter :=
  if Bytes.HasPrefix buf [x1f; x8b] then Gzip
  else if Bytes.HasPrefix buf [x42; x5a; x68] then Bzip2
  else if Bytes.HasPrefix buf [xfd; x37; x7a; x58; x5a; x00] then Xz
  else if Bytes.HasPrefix buf [x28; xb5; x2f; xfd] then Zstd
  else Plain.

(** The error of the constructor of the reader, for the filters that
    have one. *)
Definition NewReader (flt : filter) (data : list byte) : option error :=
  match flt with
  | Gzip => gzip_NewReader data
  | Xz => xz_NewReader data
  | Zstd => zstd_NewReader data
  | Bzip2 | Plain => None
  end.

(** The body of the loop of [untar], for one entry. *)
Definition untar_entry (dest : string) (header : Tar.Header)
    (body : list byte * option error) (w : World) : World * option error :=
  let target := Filepath.Join [dest; Tar.Name header] in
  if Bytes.byte_eqb (Tar.Typeflag header) Tar.TypeDir then
    ((MkdirAll target ModePerm w).1, None)
  else if Bytes.byte_eqb (Tar.Typeflag header) Tar.TypeReg then
    let w := (MkdirAll (Filepath.Dir target) ModePerm w).1 in
    match Create target w with
    | (w, inr err) => (w, Some err)
    | (w, inl outFile) => Copy outFile body w
    end
  else (w, None).

Fixpoint untar_loop (dest : string) (tr : Tar.Stream) (w : World)
  : World * option error :=
  match tr with
  | Tar.AtEOF => (w, None)
  | Tar.Fail err => (w, Some err)
  | Tar.Entry header body rest =>
      match untar_entry dest header body w with
      | (w, Some err) => (w, Some err)
      | (w, None) => untar_loop dest rest w
      end
  end.

(** [untar]: the errors of the first [Read] are dropped; a source that
    cannot be read (a directory) fails at the first [tr.Next()]. *)
Definition untar (src dest : string) (w : World) : World * option error :=
  match Open w src with
  | inr err => (w, Some err)
  | inl f =>
      let '(buf, _, _) := Read f 6 in
      match contents f with
      | inr err => (w, Some err)
      | inl data =>
          let flt := untar_filter buf in
          match NewReader flt data with
          | Some err => (w, Some err)
          | None => untar_loop dest (tar_NewReader flt data) w
          end
      end
  end.

(** [cmd.Run()], the standard output of the child going to [out]: the
    open file, or the terminal. *)
Definition Run (name : string) (args : list string) (out : option rpath)
    (w : World) : World * option error :=
  let p := exec_Run name args (tree w) in
  let w := {| tree := Exec.after p; umask := umask w;
              spawned := spawned w ++ [(name, args)];
              terminal := terminal w |} in
  match out with
  | Some outFile => (write outFile (Exec.Stdout p) w, Exec.status p)
  | None =>
      ({| tree := tree w; umask := umask w; spawned := spawned w;
          terminal := terminal w ++ [Child (Exec.Stdout p)] |},
       Exec.status p)
  end.

(** The [switch typ] of [extractSingleFile]: the command, if any. *)
Definition single_file_command (typ src : string)
  : option (string * list string) :=
  if String.eqb typ "gz" then Some ("gunzip", ["-k"; "-c"; src])
  else if String.eqb typ "bz2" then Some ("bunzip2", ["-k"; "-c"; src])
  else if String.eqb typ "xz" then Some ("unxz", ["-k"; "-c"; src])
  else if String.eqb typ "zst" then Some ("unzstd", ["-k"; "-c"; src])
  else None.

Definition extractSingleFile (src dest typ : string) (w : World)
  : World * option error :=
  match single_file_command typ src with
  | None => (w, Some (errorString "unsupported single file compression type"))
  | Some (name, args) =>
      let outPath := Filepath.Join [dest; Filepath.Base src] in
      match Create outPath w with
      | (w, inr err) => (w, Some err)
      | (w, inl outFile) => Run name args (Some outFile) w
      end
  end.

Definition extractWith7z (src dest : string) (w : World) : World * option error :=
  Run "7z" ["x"; src; "-o" +:+ dest; "-y"] None w.

Definition one_of (s : string) (l : list string) : bool :=
  existsb (String.eqb s) l.

(** The [switch archiveType] of [main]; [None] is its [default]. *)
Definition extract (archiveType archivePath destDir : string) (w : World)
  : option (World * option error) :=
  if one_of archiveType ["zip"] then Some (unzip archivePath destDir w)
  else if one_of archiveType
            ["tar"; "tar.gz"; "tar.bz2"; "tar.xz"; "tar.lz"; "tar.lzma"; "tar.zst"]
  then Some (untar archivePath destDir w)
  else if one_of archiveType ["gz"; "bz2"; "xz"; "lz"; "lzma"; "zst"]
  then Some (extractSingleFile archivePath destDir archiveType w)
  else if one_of archiveType ["7z"; "rar"]
  then Some (extractWith7z archivePath destDir w)
  else None.

(** [main] on [os.Args]: the world it leaves and the exit status. *)
Definition main (Args : list string) (w : World) : World * Z :=
  match Args with
  | [] | [_] => (Println "usage: unarch <archive_file> [destination]." w, 1%Z)
  | _ :: archivePath :: rest =>
      let destDir := match rest with d :: _ => d | [] => "." end in
      match detectArchiveType w archivePath with
      | inr err =>
          (Println ("error detecting archive type: " +:+ Error err) w, 1%Z)
      | inl archiveType =>
          match extract archiveType archivePath destDir w with
          | None => (Println "unsupported archive type." w, 1%Z)
          | Some (w, Some err) =>
              (Println ("extraction error: " +:+ Error err) w, 1%Z)
          | Some (w, None) => (Println "extraction complete." w, 0%Z)
          end
      end
  end.

End Strategies.

End Unarch.

(** ** The tables of the specification *)

Module Spec.

(** Signature and tag, in the order of priority. *)
Definition signatures : list (list byte * string) :=
  [ ([x50; x4b], "zip");
    ([x1f; x8b], "tar.gz");
    ([x42; x5a; x68], "tar.bz2");
    ([xfd; x37; x7a; x58; x5a; x00], "tar.xz");
    ([x52; x61; x72; x21], "rar");
    ([x37; x7a; xbc; xaf; x27; x1c], "7z");
    ([x28; xb5; x2f; xfd], "tar.zst") ].

(** The first signature of the table that the bytes start with. *)
Definition signature_tag (bytes : list byte) : option string :=
  snd <$> List.find (fun st => Bytes.HasPrefix bytes st.1) signatures.

(** Extension and tag. *)
Definition extensions : list (string * string) :=
  [ (".gz", "gz"); (".bz2", "bz2"); (".xz", "xz"); (".lz", "lz");
    (".lzma", "lzma"); (".zst", "zst"); (".tar", "tar");
    (".tar.lz", "tar.lz"); (".tar.lzma", "tar.lzma") ].

Fixpoint starts_with (l p : list ascii) {struct p} : bool :=
  match p, l with
  | [], _ => true
  | _ :: _, [] => false
  | c :: p', d :: l' => Ascii.eqb d c && starts_with l' p'
  end.

(** [name] ends with [suffix]: read from the end, it starts with the
    suffix reversed. *)
Definition ends_with (name suffix : string) : bool :=
  starts_with (rev (Filepath.chars name)) (rev (Filepath.chars suffix)).

(** The file name carries one of the extensions of the table. *)
Definition has_extension (name : string) : bool :=
  existsb (fun et => ends_with name et.1) extensions.

(** The tag of the table for the extension [filepath.Ext] finds. *)
Definition extension_tag (name : string) : option string :=
  snd <$> List.find (fun et => String.eqb (Filepath.Ext name) et.1) extensions.

(** The tag of the table for the longest extension of the table the name
    ends with: the reading under which [x.tar.lz] is a [tar.lz]. *)
Definition longest_extension_tag (name : string) : option string :=
  snd <$> List.find (fun et => ends_with name et.1) (rev extensions).

(** Signature and filter of the streaming-tar strategy. *)
Definition filters : list (list byte * filter) :=
  [ ([x1f; x8b], Gzip);
    ([x42; x5a; x68], Bzip2);
    ([xfd; x37; x7a; x58; x5a; x00], Xz);
    ([x28; xb5; x2f; xfd], Zstd) ].

Definition filter_for (bytes : list byte) : filter :=
  default Plain (snd <$> List.find (fun sf => Bytes.HasPrefix bytes sf.1) filters).

Definition tar_family : list string :=
  ["tar"; "tar.gz"; "tar.bz2"; "tar.xz"; "tar.lz"; "tar.lzma"; "tar.zst"].

Definition single_file_tools : list string := ["gz"; "bz2"; "xz"; "zst"].

Definition unknown_format : Os.error := Os.errorString "unknown archive type".

Definition unsupported_compression_type : Os.error :=
  Os.errorString "unsupported single file compression type".

(** [name] is a regular file of [w] with content [data]. *)
Definition regular_file (w : Os.World) (name : string) (data : list byte) : Prop :=
  exists k mode, Os.resolve name = Some k /\ Os.stat w k = Some (Os.Regular mode data).

(** [p] is [root] or lies below it: same anchor, and the elements of
    [root] are the first elements of [p]. *)
Definition within (root p : Os.rpath) : bool :=
  Bool.eqb root.1 p.1 &&
  bool_decide (take (length root.2) p.2 = root.2).

End Spec.

(** ** A small world to run the program in *)

Module Scenario.

Import Os.

Definition here (elems : list string) : rpath := (false, elems).

(** An umask of 0o022; modes 0o644 (420) and 0o755 (493). *)
Definition world : World :=
  {| tree := list_to_map
       [ (here ["x.gz"], Regular 420 [x1f; x8b; x08; x00]);
         (here ["x.tar.lz"], Regular 420 [x4c; x5a; x49; x50; x01]);
         (here ["notes.lzma"], Regular 420 [x5d; x00; x00]);
         (here ["data.xz"], Regular 420 [x68; x69]);
         (here ["short.bin"], Regular 420 [xfd; x37; x7a; x58; x5a]);
         (here ["blob.bin"], Regular 420 [xde; xad; xbe; xef]);
         (here ["empty"], Regular 420 []);
         (here ["a.tar"], Regular 420 [x61; x2f; x62]);
         (here ["a.zip"], Regular 420 [x50; x4b; x03; x04]);
         (here ["out"], Directory 493) ];
     umask := 18;
     spawned := [];
     terminal := [] |}.

Definition evil : string := "../evil.txt".
Definition payload : list byte := [x70; x77; x6e].

(** Libraries that find, in every archive, the directory [d], the file
    [d/f] with mode 0o600 (384), a symbolic link, and the file
    [../evil.txt]; and tools that print [payload]. *)
#[local] Instance libraries : Libraries :=
  {| zip_OpenReader := fun _ =>
       inl [ Zip.mkFile "d/" (Z.lor ModeDir 493) (inl ([], None));
             Zip.mkFile "d/f" 384 (inl (payload, None));
             Zip.mkFile evil 384 (inl (payload, None)) ];
     gzip_NewReader := fun _ => None;
     xz_NewReader := fun _ => None;
     zstd_NewReader := fun _ => None;
     tar_NewReader := fun _ _ =>
       Tar.Entry (Tar.mkHeader "d" Tar.TypeDir 493) ([], None)
         (Tar.Entry (Tar.mkHeader "d/f" Tar.TypeReg 384) (payload, None)
            (Tar.Entry (Tar.mkHeader "d/l" x32 511) ([], None)
               (Tar.Entry (Tar.mkHeader evil Tar.TypeReg 384) (payload, None)
                  Tar.AtEOF)));
     exec_Run := fun _ _ t => Exec.mkProcess payload t None |}.

End Scenario.


(** ** The first listing of [main.go]

    The file holds the program twice: lines 1 to 195 are the program
    before zstd, the single-file strategy and the fallback on the
    extension.  Its [untar] loop and its [extractWith7z] are, line for
    line, the ones of the second listing, and are taken from [Unarch]. *)

Module Earlier.

Import Os.

(** The [switch] of [detectArchiveType], six signatures. *)
Definition detect_magic (buf : list byte) : option string :=
  if Bytes.HasPrefix buf [x50; x4b] (* "PK" *) then Some "zip"
  else if Bytes.HasPrefix buf [x1f; x8b] then Some "tar.gz"
  else if Bytes.HasPrefix buf [x42; x5a; x68] then Some "tar.bz2"
  else if Bytes.HasPrefix buf [xfd; x37; x7a; x58; x5a; x00] then Some "tar.xz"
  else if Bytes.HasPrefix buf [x52; x61; x72; x21] then Some "rar"
  else if Bytes.HasPrefix buf [x37; x7a; xbc; xaf; x27; x1c] then Some "7z"
  else None.

Definition detect_switch (buf : list byte) : string + error :=
  match detect_magic buf with
  | Some t => inl t
  | None => inr (errorString "unknown archive type")
  end.

Definition detectArchiveType (w : World) (filePath : string) : string + error :=
  match Open w filePath with
  | inr err => inr err
  | inl f =>
      let '(buf, _, err) := Read f 16 in
      match err with
      | Some e => if Unarch.is_EOF e then detect_switch buf else inr e
      | None => detect_switch buf
      end
  end.

Section Strategies.

Context {L : Libraries}.

(** The body of the loop of [unzip]: here the error of the [MkdirAll] of
    the directory of the file is returned. *)
Definition unzip_file (dest : string) (f : Zip.File) (w : World)
  : World * option error :=
  let fpath := Filepath.Join [dest; Zip.Name f] in
  if IsDir (Zip.Mode f) then ((MkdirAll fpath ModePerm w).1, None)
  else
    match MkdirAll (Filepath.Dir fpath) ModePerm w with
    | (w, Some err) => (w, Some err)
    | (w, None) =>
        match OpenFile fpath (Zip.Mode f) w with
        | (w, inr err) => (w, Some err)
        | (w, inl outFile) =>
            match Zip.Open f with
            | inr err => (w, Some err)
            | inl rc => Copy outFile rc w
            end
        end
    end.

Fixpoint unzip_loop (dest : string) (files : list Zip.File) (w : World)
  : World * option error :=
  match files with
  | [] => (w, None)
  | f :: files' =>
      match unzip_file dest f w with
      | (w, Some err) => (w, Some err)
      | (w, None) => unzip_loop dest files' w
      end
  end.

Definition unzip (src dest : string) (w : World) : World * option error :=
  match Open w src with
  | inr err => (w, Some err)
  | inl f =>
      match contents f with
      | inr err => (w, Some err)
      | inl data =>
          match zip_OpenReader data with
          | inr err => (w, Some err)
          | inl files => unzip_loop dest files w
          end
      end
  end.

(** The [switch] of [untar] on the 6 bytes read, three filters. *)
Definition untar_filter (buf : list byte) : filter :=
  if Bytes.HasPrefix buf [x1f; x8b] then Gzip
  else if Bytes.HasPrefix buf [x42; x5a; x68] then Bzip2
  else if Bytes.HasPrefix buf [xfd; x37; x7a; x58; x5a; x00] then Xz
  else Plain.

Definition untar (src dest : string) (w : World) : World * option error :=
  match Open w src with
  | inr err => (w, Some err)
  | inl f =>
      let '(buf, _, _) := Read f 6 in
      match contents f with
      | inr err => (w, Some err)
      | inl data =>
          let flt := untar_filter buf in
          match Unarch.NewReader flt data with
          | Some err => (w, Some err)
          | None => Unarch.untar_loop dest (tar_NewReader flt data) w
          end
      end
  end.

(** The [switch archiveType] of [main]; [None] is its [default]. *)
Definition extract (archiveType archivePath destDir : string) (w : World)
  : option (World * option error) :=
  if Unarch.one_of archiveType ["zip"] then Some (unzip archivePath destDir w)
  else if Unarch.one_of archiveType ["tar"; "tar.gz"; "tar.bz2"; "tar.xz"]
  then Some (untar archivePath destDir w)
  else if Unarch.one_of archiveType ["7z"; "rar"]
  then Some (Unarch.extractWith7z archivePath destDir w)
  else None.

Definition main (Args : list string) (w : World) : World * Z :=
  match Args with
  | [] | [_] => (Println "Usage: unarch <archive_file> [destination]" w, 1%Z)
  | _ :: archivePath :: rest =>
      let destDir := match rest with d :: _ => d | [] => "." end in
      match detectArchiveType w archivePath with
      | inr err =>
          (Println ("Error detecting archive type: " +:+ Error err) w, 1%Z)
      | inl archiveType =>
          match extract archiveType archivePath destDir w with
          | None => (Println "Unsupported archive type" w, 1%Z)
          | Some (w, Some err) =>
              (Println ("Extraction error: " +:+ Error err) w, 1%Z)
          | Some (w, None) => (Println "Extraction complete!" w, 0%Z)
          end
      end
  end.

End Strategies.

End Earlier.

(** ** What the laws below are stated with *)

Module Laws.

Import Os.

(** The tags the [switch] of [main] has a case for. *)
Definition handled_tags : list string :=
  ["zip"; "tar"; "tar.gz"; "tar.bz2"; "tar.xz"; "tar.lz"; "tar.lzma"; "tar.zst";
   "gz"; "bz2"; "xz"; "lz"; "lzma"; "zst"; "7z"; "rar"].

(** The tag of a single-file format and the signature of that format. *)
Definition single_file_magic : list (string * list byte) :=
  [ ("gz", [x1f; x8b]);
    ("bz2", [x42; x5a; x68]);
    ("xz", [xfd; x37; x7a; x58; x5a; x00]);
    ("zst", [x28; xb5; x2f; xfd]) ].

(** A tag of the tar family and the filter that goes with its name. *)
Definition tar_tag_filter : list (string * filter) :=
  [ ("tar.gz", Gzip); ("tar.bz2", Bzip2); ("tar.xz", Xz); ("tar.zst", Zstd);
    ("tar", Plain) ].

(** From [w] to [w'] nothing was started or printed, no node was removed,
    no node changed its kind or its mode. *)
Definition keeps (w w' : World) : Prop :=
  umask w' = umask w /\ spawned w' = spawned w /\ terminal w' = terminal w /\
  (forall k m, stat w k = Some (Directory m) -> stat w' k = Some (Directory m)) /\
  (forall k m d, stat w k = Some (Regular m d) ->
                 exists d', stat w' k = Some (Regular m d')).

(** How a tar stream ends: [io.EOF] from [Next], or an error. *)
Fixpoint ending (s : Tar.Stream) : option error :=
  match s with
  | Tar.AtEOF => None
  | Tar.Fail err => Some err
  | Tar.Entry _ _ rest => ending rest
  end.

(** No entry of the stream is a regular file. *)
Fixpoint no_regular (s : Tar.Stream) : bool :=
  match s with
  | Tar.AtEOF | Tar.Fail _ => true
  | Tar.Entry h _ rest =>
      negb (Bytes.byte_eqb (Tar.Typeflag h) Tar.TypeReg) && no_regular rest
  end.


End Laws.

(** ** A second small world: libraries that find nothing *)

Module Bare.

Import Os.

(** An empty zip archive, an empty tar stream, a gzip header that is
    refused, and tools that fail. *)
#[local] Instance libraries : Libraries :=
  {| zip_OpenReader := fun _ => inl [];
     gzip_NewReader := fun _ => Some (errorString "gzip: invalid header");
     xz_NewReader := fun _ => None;
     zstd_NewReader := fun _ => None;
     tar_NewReader := fun _ _ => Tar.AtEOF;
     exec_Run := fun _ _ t =>
       Exec.mkProcess [] t (Some (errorString "exit status 2")) |}.

(** The world of [Scenario] with an archive of each kind more. *)
Definition world : World :=
  {| tree := list_to_map
       [ (Scenario.here ["x.gz"], Regular 420 [x1f; x8b; x08; x00]);
         (Scenario.here ["a.tar"], Regular 420 [x61; x2f; x62]);
         (Scenario.here ["a.zip"], Regular 420 [x50; x4b; x03; x04]);
         (Scenario.here ["a.rar"], Regular 420 [x52; x61; x72; x21; x1a; x07]);
         (Scenario.here ["a.zst"], Regular 420 [x28; xb5; x2f; xfd; x00]);
         (Scenario.here ["plain.gz"], Regular 420 [x68; x69]);
         (Scenario.here ["out"], Directory 493);
         (Scenario.here ["out"; "old"], Regular 384 [x6f; x6c; x64]) ];
     umask := 18;
     spawned := [];
     terminal := [] |}.

End Bare.

(** ** Libraries whose readers name themselves in their errors

    A run with them shows which reader [untar] has built. *)

Module Strict.

Import Os.

(** The xz reader refuses a stream that is shorter than the twelve bytes
    of its header, the tar reader a first block that is cut short. *)
#[local] Instance libraries : Libraries :=
  {| zip_OpenReader := fun _ => inl [];
     gzip_NewReader := fun _ => None;
     xz_NewReader := fun data =>
       if (length data <? 12)%nat then Some (errorString "xz: unexpected EOF")
       else None;
     zstd_NewReader := fun _ => None;
     tar_NewReader := fun _ data =>
       match data with
       | [] => Tar.AtEOF
       | _ => if (length data <? 512)%nat
              then Tar.Fail (errorString "archive/tar: unexpected EOF")
              else Tar.AtEOF
       end;
     exec_Run := fun _ _ t => Exec.mkProcess [] t None |}.

End Strict.

(** ** What a run may touch *)

Module Reach.

Import Os.



(** The names of the entries of a tar stream, in order. *)
Fixpoint names (s : Tar.Stream) : list string :=
  match s with
  | Tar.AtEOF | Tar.Fail _ => []
  | Tar.Entry h _ rest => Tar.Name h :: names rest
  end.

End Reach.

(** ** Archives with an absolute name *)

Module Absolute.

Import Os.

(** Libraries that find, in every archive, the directory [d] and a file
    under the name [/etc/passwd]. *)
#[local] Instance libraries : Libraries :=
  {| zip_OpenReader := fun _ =>
       inl [ Zip.mkFile "d/" (Z.lor ModeDir 493) (inl ([], None));
             Zip.mkFile "/etc/passwd" 384 (inl (Scenario.payload, None)) ];
     gzip_NewReader := fun _ => None;
     xz_NewReader := fun _ => None;
     zstd_NewReader := fun _ => None;
     tar_NewReader := fun _ _ =>
       Tar.Entry (Tar.mkHeader "d" Tar.TypeDir 493) ([], None)
         (Tar.Entry (Tar.mkHeader "/etc/passwd" Tar.TypeReg 420)
            (Scenario.payload, None) Tar.AtEOF);
     exec_Run := fun _ _ t => Exec.mkProcess [] t None |}.

End Absolute.

(** * Properties *)

(** ** The path functions on the examples of the library's documentation *)

Example Ext_examples :
  Filepath.Ext "index" = "" /\ Filepath.Ext "index.js" = ".js" /\
  Filepath.Ext "main.test.js" = ".js" /\ Filepath.Ext "a.b/c" = "" /\
  Filepath.Ext "x.tar.lz" = ".lz".
Proof. repeat split; reflexivity. Qed.

Example Base_examples :
  Filepath.Base "/foo/bar/baz.js" = "baz.js" /\ Filepath.Base "/foo/bar/baz/" = "baz" /\
  Filepath.Base "dev.txt" = "dev.txt" /\ Filepath.Base "../todo.txt" = "todo.txt" /\
  Filepath.Base ".." = ".." /\ Filepath.Base "." = "." /\
  Filepath.Base "/" = "/" /\ Filepath.Base "" = ".".
Proof. repeat split; reflexivity. Qed.

Example Dir_examples :
  Filepath.Dir "/foo/bar/baz.js" = "/foo/bar" /\ Filepath.Dir "/foo/bar/baz/" = "/foo/bar/baz" /\
  Filepath.Dir "/dirty//path///" = "/dirty/path" /\ Filepath.Dir "dev.txt" = "." /\
  Filepath.Dir "../todo.txt" = ".." /\ Filepath.Dir ".." = "." /\
  Filepath.Dir "/" = "/" /\ Filepath.Dir "" = ".".
Proof. repeat split; reflexivity. Qed.

Example Clean_examples :
  Filepath.Clean "abc//def//ghi" = "abc/def/ghi" /\ Filepath.Clean "abc/./../def" = "def" /\
  Filepath.Clean "/../abc" = "/abc" /\ Filepath.Clean "abc/def/../../.." = ".." /\
  Filepath.Clean "../../abc" = "../../abc" /\ Filepath.Clean "abc/" = "abc" /\
  Filepath.Clean "/" = "/" /\ Filepath.Clean "" = ".".
Proof. repeat split; reflexivity. Qed.

Example Join_examples :
  Filepath.Join ["a"; "b"; "c"] = "a/b/c" /\ Filepath.Join ["a/b"; "/c"] = "a/b/c" /\
  Filepath.Join ["a/b"; "../../../xyz"] = "../xyz" /\ Filepath.Join [""; ""] = "" /\
  Filepath.Join ["."; "a.txt"] = "a.txt" /\ Filepath.Join [""; "a"] = "a".
Proof. repeat split; reflexivity. Qed.


(** ** Detection *)

Section Detection.

Import Os Unarch.

Lemma fill_short (n : nat) (data : list byte) :
  (length data <= n)%nat -> Bytes.fill n data = data ++ Bytes.make (n - length data).
Proof. intros H. unfold Bytes.fill. by rewrite take_ge. Qed.

Lemma fill_take (n : nat) (data : list byte) :
  Bytes.fill n (take n data) = Bytes.fill n data.
Proof.
  unfold Bytes.fill. rewrite take_take, Nat.min_id, length_take.
  destruct (Nat.le_ge_cases n (length data)) as [H | H].
  - by replace (n - n `min` length data)%nat with (n - length data)%nat by lia.
  - by rewrite Nat.min_r.
Qed.

(** The switch on the magic bytes is the lookup in the table of
    signatures, in its order. *)
Lemma detect_magic_table (buf : list byte) :
  detect_magic buf = Spec.signature_tag buf.
Proof.
  unfold detect_magic, Spec.signature_tag, Spec.signatures. cbn [List.find fst].
  repeat (match goal with |- context [Bytes.HasPrefix buf ?sig] =>
            destruct (Bytes.HasPrefix buf sig); [reflexivity |] end).
  reflexivity.
Qed.

(** The switch on the extension is the lookup of [filepath.Ext] in the
    table of extensions. *)
Lemma detect_ext_table (name : string) :
  detect_ext (Filepath.Ext name) =
  match Spec.extension_tag name with
  | Some t => inl t
  | None => inr Spec.unknown_format
  end.
Proof.
  unfold detect_ext, Spec.extension_tag, Spec.extensions. cbn [List.find fst].
  repeat (match goal with |- context [String.eqb (Filepath.Ext name) ?e] =>
            destruct (String.eqb (Filepath.Ext name) e); [reflexivity |] end).
  reflexivity.
Qed.

(** On a regular file the read cannot fail: the result is the switch on
    the buffer of 16 bytes, filled from the file. *)
Lemma detect_regular_file (w : World) (name : string) (data : list byte) :
  Spec.regular_file w name data ->
  detectArchiveType w name = detect_switch (Bytes.fill 16 data) name.
Proof.
  intros (k & mode & Hk & Hst). unfold detectArchiveType, Open.
  rewrite Hk, Hst. unfold Read. cbn [file_node].
  destruct data as [| b data]; reflexivity.
Qed.

(** What is not a regular file is never classified. *)
Lemma detect_not_regular (w : World) (name : string) (r : string + error) :
  detectArchiveType w name = r ->
  (exists data, Spec.regular_file w name data) \/
  (exists op e, r = inr (PathError op name e)).
Proof.
  unfold detectArchiveType, Open. intros <-.
  destruct (resolve name) as [k |] eqn:Hk; [| right; eauto].
  destruct (stat w k) as [[m | m data] |] eqn:Hst; [| | right; eauto].
  - right. unfold Read. cbn. eauto.
  - left. exists data, k, m. auto.
Qed.

End Detection.


(** ** The extension [filepath.Ext] finds *)

Section Extension.

Import Filepath.

Lemma is_dot_eq (c : ascii) : is_dot c = true -> c = "."%char.
Proof. unfold is_dot. apply Ascii.eqb_eq. Qed.

Lemma chars_str (l : list ascii) : chars (str l) = l.
Proof. apply list_ascii_of_string_of_list_ascii. Qed.

Lemma str_chars (s : string) : str (chars s) = s.
Proof. apply string_of_list_ascii_of_string. Qed.

(** The loop returns the empty string, or the text from the last dot on,
    and no dot or separator comes after that dot. *)
Lemma ext_loop_shape (before after : list ascii) :
  ext_loop before after = "" \/
  exists mid rest,
    before = mid ++ "."%char :: rest /\ Forall plain_char mid /\
    ext_loop before after = str ("."%char :: rev mid ++ after).
Proof.
  revert after. induction before as [| c before IH]; intros after; [by left |].
  cbn [ext_loop].
  destruct (IsPathSeparator c) eqn:Hsep; [by left |].
  destruct (is_dot c) eqn:Hdot.
  - right. exists [], before. apply is_dot_eq in Hdot as ->. by repeat split.
  - destruct (IH (c :: after)) as [-> | (mid & rest & -> & Hmid & ->)]; [by left |].
    right. exists (c :: mid), rest. repeat split.
    + by constructor.
    + cbn [rev]. by rewrite <- app_assoc.
Qed.

Lemma Ext_shape (name e : string) :
  Ext name = e -> e <> "" ->
  exists mid rest,
    rev (chars name) = mid ++ "."%char :: rest /\ Forall plain_char mid /\
    chars e = "."%char :: rev mid.
Proof.
  unfold Ext. intros He Hne.
  destruct (ext_loop_shape (rev (chars name)) []) as [H | (mid & rest & H1 & H2 & H3)].
  - congruence.
  - exists mid, rest. split; [done |]. split; [done |].
    rewrite <- He, H3, chars_str. by rewrite app_nil_r.
Qed.

Lemma starts_with_app (l p : list ascii) :
  Spec.starts_with l p = true <-> exists r, l = p ++ r.
Proof.
  revert l. induction p as [| c p IH]; intros l; cbn.
  - split; [intros _; by exists l | done].
  - destruct l as [| d l].
    + split; [done | by intros [r Hr]].
    + rewrite andb_true_iff, Ascii.eqb_eq, IH. split.
      * intros [-> [r ->]]. eauto.
      * intros [r [= -> ->]]. eauto.
Qed.

(** [Ext] returns a suffix of the name. *)
Lemma Ext_ends_with (name e : string) :
  Ext name = e -> e <> "" -> Spec.ends_with name e = true.
Proof.
  intros He Hne. destruct (Ext_shape name e He Hne) as (mid & rest & H1 & _ & H2).
  unfold Spec.ends_with. rewrite H1, H2. cbn [rev]. rewrite rev_involutive.
  apply starts_with_app. exists rest. by rewrite <- app_assoc.
Qed.

(** [Ext] never returns an extension with two dots. *)
Lemma Ext_single_dot (name : string) (a b : list ascii) :
  chars (Ext name) <> "."%char :: a ++ "."%char :: b.
Proof.
  intros H.
  destruct (Ext_shape name (Ext name) eq_refl) as (mid & rest & _ & Hmid & H2).
  { intros E. rewrite E in H. discriminate. }
  rewrite H in H2. injection H2 as H2.
  assert (In "."%char mid) as Hin.
  { apply in_rev. rewrite <- H2. apply in_or_app. right. by left. }
  rewrite Forall_forall in Hmid. apply list_elem_of_In, Hmid in Hin.
  by destruct Hin as [_ Hin].
Qed.

Lemma Ext_not_tar_lz (name : string) : Ext name <> ".tar.lz".
Proof.
  intros H. apply (Ext_single_dot name (chars "tar") (chars "lz")).
  by rewrite H.
Qed.

Lemma Ext_not_tar_lzma (name : string) : Ext name <> ".tar.lzma".
Proof.
  intros H. apply (Ext_single_dot name (chars "tar") (chars "lzma")).
  by rewrite H.
Qed.

(** A name that ends with a dot and letters has them as its extension. *)
Lemma Ext_of_suffix (name : string) (body : list ascii) :
  Forall plain_char body ->
  Spec.ends_with name (str ("."%char :: body)) = true ->
  Ext name = str ("."%char :: body).
Proof.
  intros Hbody. unfold Spec.ends_with, Ext. rewrite chars_str.
  intros [r ->]%starts_with_app. cbn [rev]. rewrite <- app_assoc. cbn [app].
  assert (Forall plain_char (rev body)) as Hrev.
  { apply Forall_forall. intros c Hc%list_elem_of_In%in_rev%list_elem_of_In.
    by eapply Forall_forall in Hbody. }
  replace body with (rev (rev body) ++ []) at 2
    by (by rewrite rev_involutive, app_nil_r).
  generalize (@nil ascii) as after. induction Hrev as [| c l [Hc1 Hc2] Hl IH]; intros after.
  - reflexivity.
  - cbn [app ext_loop rev]. rewrite Hc1, Hc2, IH. by rewrite <- app_assoc.
Qed.

End Extension.


(** ** The two tables against each other *)

Section Recognised.

Import Filepath.

Lemma ends_with_longer (name : string) (a b : list ascii) :
  Spec.ends_with name (str (a ++ b)) = true -> Spec.ends_with name (str b) = true.
Proof.
  unfold Spec.ends_with. rewrite !chars_str, rev_app_distr.
  intros [r ->]%starts_with_app. apply starts_with_app.
  exists (rev a ++ r). by rewrite <- app_assoc.
Qed.

Lemma plain_letters (body : string) :
  forallb (fun c => negb (IsPathSeparator c) && negb (is_dot c)) (chars body) = true ->
  Forall plain_char (chars body).
Proof.
  rewrite forallb_forall, Forall_forall. intros H c Hc%list_elem_of_In.
  apply H in Hc. apply andb_true_iff in Hc as [H1 H2].
  split; by apply negb_true_iff.
Qed.

(** A name that ends with an extension of the table has an extension of
    the table for [filepath.Ext]: the same one, or for [.tar.lz] and
    [.tar.lzma] the last part of it. *)
Lemma has_extension_tag (name : string) :
  Spec.has_extension name = true -> is_Some (Spec.extension_tag name).
Proof.
  unfold Spec.has_extension, Spec.extensions. cbn [existsb fst].
  rewrite !orb_true_iff.
  assert (forall body : string,
             forallb (fun c => negb (IsPathSeparator c) && negb (is_dot c))
                     (chars body) = true ->
             Spec.ends_with name (str ("."%char :: chars body)) = true ->
             Ext name = str ("."%char :: chars body)) as Hone.
  { intros body Hb. apply Ext_of_suffix. by apply plain_letters. }
  unfold Spec.extension_tag, Spec.extensions.
  intros [H | [H | [H | [H | [H | [H | [H | [H | [H | H]]]]]]]]];
    try discriminate H.
  - rewrite (Hone "gz" eq_refl H). by eexists.
  - rewrite (Hone "bz2" eq_refl H). by eexists.
  - rewrite (Hone "xz" eq_refl H). by eexists.
  - rewrite (Hone "lz" eq_refl H). by eexists.
  - rewrite (Hone "lzma" eq_refl H). by eexists.
  - rewrite (Hone "zst" eq_refl H). by eexists.
  - rewrite (Hone "tar" eq_refl H). by eexists.
  - apply (ends_with_longer name (chars ".tar") (chars ".lz")) in H.
    rewrite (Hone "lz" eq_refl H). by eexists.
  - apply (ends_with_longer name (chars ".tar") (chars ".lzma")) in H.
    rewrite (Hone "lzma" eq_refl H). by eexists.
Qed.

Lemma extension_tag_has (name : string) :
  is_Some (Spec.extension_tag name) -> Spec.has_extension name = true.
Proof.
  unfold Spec.extension_tag. intros [t Ht].
  destruct (List.find _ _) as [[e t'] |] eqn:Hf; [| done].
  apply find_some in Hf as [Hin Heq]. cbn in Heq. apply String.eqb_eq in Heq.
  unfold Spec.has_extension. apply existsb_exists. exists (e, t').
  split; [done |]. cbn. apply Ext_ends_with; [done |].
  intros ->. cbn in Hin.
  repeat (destruct Hin as [Hin | Hin]; [discriminate Hin |]). done.
Qed.

(** No extension of the table at the end of the name, no tag. *)
Lemma extension_tag_None (name : string) :
  Spec.extension_tag name = None <-> Spec.has_extension name = false.
Proof.
  split; intros H.
  - destruct (Spec.has_extension name) eqn:E; [| done].
    apply has_extension_tag in E as [t Ht]. congruence.
  - destruct (Spec.extension_tag name) as [t |] eqn:E; [| done].
    rewrite extension_tag_has in H; [done | by eexists].
Qed.

End Recognised.

(** ** What the specification says of the classifier *)

Section Classifier.

Import Os Unarch.

Lemma detect_inl (w : World) (name tag : string) :
  detectArchiveType w name = inl tag ->
  exists buf, detect_switch buf name = inl tag.
Proof.
  unfold detectArchiveType. destruct (Open w name) as [f | e]; [| done].
  destruct (Read f 16) as [[buf n] [e |]]; [destruct (is_EOF e) |]; eauto; done.
Qed.

Lemma detect_ext_tar_lz (name : string) :
  detect_ext (Filepath.Ext name) <> inl "tar.lz" /\
  detect_ext (Filepath.Ext name) <> inl "tar.lzma".
Proof.
  pose proof (Ext_not_tar_lz name) as H1. pose proof (Ext_not_tar_lzma name) as H2.
  unfold detect_ext.
  repeat (match goal with |- context [String.eqb (Filepath.Ext name) ?e] =>
            destruct (String.eqb_spec (Filepath.Ext name) e); [by split |] end).
  by split.
Qed.

Lemma detect_switch_tar_lz (buf : list byte) (name : string) :
  detect_switch buf name <> inl "tar.lz" /\ detect_switch buf name <> inl "tar.lzma".
Proof.
  unfold detect_switch, detect_magic.
  repeat (match goal with |- context [Bytes.HasPrefix buf ?sig] =>
            destruct (Bytes.HasPrefix buf sig); [by split |] end).
  apply detect_ext_tar_lz.
Qed.

(** C1. A regular file that starts with a signature of the table gets the
    tag of that signature, whatever follows the signature in the file and
    whatever the name of the file. *)
Theorem signature_decides_tag (w : World) (name : string)
    (sig rest : list byte) (tag : string) :
  In (sig, tag) Spec.signatures ->
  Spec.regular_file w name (sig ++ rest) ->
  detectArchiveType w name = inl tag.
Proof.
  intros Hin Hfile. rewrite (detect_regular_file _ _ _ Hfile).
  unfold detect_switch, detect_magic, Bytes.fill.
  cbn in Hin.
  repeat (destruct Hin as [[= <- <-] | Hin]; [reflexivity |]).
  destruct Hin.
Qed.

(** C2. The tags [tar.lz] and [tar.lzma] are never returned, for
    [filepath.Ext] stops at the last dot: the file [x.tar.lz], which
    starts with no signature and which the table of extensions makes a
    [tar.lz], is classified [lz]. *)
Theorem tar_lz_classified_lz :
  (forall w name,
      detectArchiveType w name <> inl "tar.lz" /\
      detectArchiveType w name <> inl "tar.lzma") /\
  Spec.regular_file Scenario.world "x.tar.lz" [x4c; x5a; x49; x50; x01] /\
  Spec.signature_tag (Bytes.fill 16 [x4c; x5a; x49; x50; x01]) = None /\
  Spec.longest_extension_tag "x.tar.lz" = Some "tar.lz" /\
  detectArchiveType Scenario.world "x.tar.lz" = inl "lz".
Proof.
  split; [| split; [| by vm_compute]].
  - intros w name. split; intros [buf H]%detect_inl;
      destruct (detect_switch_tar_lz buf name) as [H1 H2]; contradiction.
  - exists (Scenario.here ["x.tar.lz"]), 420%Z. by vm_compute.
Qed.

(** C6. A regular file of fewer than 16 bytes, the empty one too, is
    classified from the buffer its bytes fill only in part, the rest of
    it zero: by the first signature the buffer starts with, else by the
    extension, else not at all; the short read and the end of file are
    no errors. *)
Theorem short_file_falls_through (w : World) (name : string) (data : list byte) :
  Spec.regular_file w name data -> (length data < 16)%nat ->
  detectArchiveType w name =
    match Spec.signature_tag (data ++ replicate (16 - length data) x00) with
    | Some t => inl t
    | None =>
        match Spec.extension_tag name with
        | Some t => inl t
        | None => inr Spec.unknown_format
        end
    end /\
  (forall e, detectArchiveType w name = inr e ->
     e = Spec.unknown_format /\ Spec.has_extension name = false).
Proof.
  intros Hfile Hlen.
  assert (detectArchiveType w name =
    match Spec.signature_tag (data ++ replicate (16 - length data) x00) with
    | Some t => inl t
    | None =>
        match Spec.extension_tag name with
        | Some t => inl t
        | None => inr Spec.unknown_format
        end
    end) as Heq.
  { rewrite (detect_regular_file _ _ _ Hfile), fill_short by lia.
    unfold detect_switch. rewrite detect_magic_table, detect_ext_table.
    reflexivity. }
  split; [exact Heq |]. intros e. rewrite Heq.
  destruct (Spec.signature_tag _); [done |].
  destruct (Spec.extension_tag name) eqn:E; [done |].
  intros [= <-]. split; [done |]. by apply extension_tag_None.
Qed.

(** The unknown-format error, exactly: a regular file, no signature at
    the start of the buffer, no extension of the table at the end of the
    name. *)
Lemma unknown_format_exactly (w : World) (name : string) :
  detectArchiveType w name = inr Spec.unknown_format <->
  exists data,
    Spec.regular_file w name data /\
    Spec.signature_tag (Bytes.fill 16 data) = None /\
    Spec.has_extension name = false.
Proof.
  split.
  - intros H. destruct (detect_not_regular _ _ _ H) as [[data Hd] | (op & e & He)];
      [| discriminate He].
    exists data. split; [done |].
    rewrite (detect_regular_file _ _ _ Hd) in H. unfold detect_switch in H.
    rewrite detect_magic_table, detect_ext_table in H.
    destruct (Spec.signature_tag _); [done |].
    destruct (Spec.extension_tag name) eqn:E; [done |].
    split; [done |]. by apply extension_tag_None.
  - intros (data & Hd & Hsig & Hext).
    rewrite (detect_regular_file _ _ _ Hd). unfold detect_switch.
    rewrite detect_magic_table, detect_ext_table, Hsig.
    apply extension_tag_None in Hext. by rewrite Hext.
Qed.

(** The seven extensions with one dot are resolved as the table says. *)
Lemma one_dot_extension_tag (w : Os.World) (name : string) (data : list byte)
    (body tag : string) :
  In ("." +:+ body, tag)
     [(".gz", "gz"); (".bz2", "bz2"); (".xz", "xz"); (".lz", "lz");
      (".lzma", "lzma"); (".zst", "zst"); (".tar", "tar")] ->
  Spec.regular_file w name data ->
  Spec.signature_tag (Bytes.fill 16 data) = None ->
  Spec.ends_with name ("." +:+ body) = true ->
  Unarch.detectArchiveType w name = inl tag.
Proof.
  intros Hin Hfile Hsig Hend.
  rewrite (detect_regular_file _ _ _ Hfile). unfold Unarch.detect_switch.
  rewrite detect_magic_table, Hsig.
  change ("." +:+ body) with (String "."%char body) in *. cbn in Hin.
  destruct Hin as [H | [H | [H | [H | [H | [H | [H | []]]]]]]]; simplify_eq;
    match type of Hend with
    | Spec.ends_with _ (String _ ?b) = true =>
        rewrite (Ext_of_suffix name (Filepath.chars b) (plain_letters b eq_refl) Hend)
    end; reflexivity.
Qed.

End Classifier.


(** ** The file tree under [MkdirAll], [OpenFile] and [Copy] *)

Section FileTree.

Import Os.

Implicit Types (w : World) (k : rpath) (n : node).

Lemma stat_insert_eq w k n :
  k.2 <> [] -> stat (with_tree w (<[k := n]> (tree w))) k = Some n.
Proof.
  intros Hk. unfold stat. destruct k.2; [done |]. cbn. apply lookup_insert_eq.
Qed.

Lemma stat_insert_ne w k k' n :
  k <> k' -> stat (with_tree w (<[k := n]> (tree w))) k' = stat w k'.
Proof.
  intros Hk. unfold stat. destruct k'.2; [done |]. cbn. by apply lookup_insert_ne.
Qed.

Lemma stat_Some_tree w k n :
  k.2 <> [] -> stat w k = Some n -> tree w !! k = Some n.
Proof. unfold stat. by destruct k.2. Qed.

Lemma stat_None w k : stat w k = None -> k.2 <> [] /\ tree w !! k = None.
Proof. unfold stat. by destruct k.2. Qed.

Lemma not_dir_not_anchor w k : ~ is_dir w k -> k.2 <> [].
Proof. intros H E. apply H. exists ModePerm. unfold stat. by rewrite E. Qed.

Lemma parent_snoc (r : bool) (l : list string) (x : string) :
  parent (r, l ++ [x]) = (r, l).
Proof. unfold parent. cbn. by rewrite removelast_last. Qed.

(** A node put in a directory, at a place that is no directory, keeps
    the tree well formed. *)
Lemma well_formed_insert w k n :
  well_formed w -> is_dir w (parent k) -> ~ is_dir w k ->
  well_formed (with_tree w (<[k := n]> (tree w))).
Proof.
  intros Hwf Hpar Hnot k' n' Hk'. cbn in Hk'.
  assert (is_dir w (parent k')) as [m Hm].
  { destruct (decide (k = k')) as [<- | Hne]; [done |].
    rewrite lookup_insert_ne in Hk' by done. by eapply Hwf. }
  destruct (decide (k = parent k')) as [Heq | Hne].
  - exfalso. apply Hnot. rewrite Heq. by exists m.
  - exists m. by rewrite stat_insert_ne.
Qed.

(** In a well-formed tree, what lies above a node is a directory. *)
Lemma well_formed_above w (r : bool) (l p : list string) n :
  well_formed w -> stat w (r, l) = Some n -> p `prefix_of` l -> p <> l ->
  is_dir w (r, p).
Proof.
  intros Hwf. revert n. induction l as [| x l IH] using rev_ind; intros n Hst [q Hq] Hne.
  - symmetry in Hq. apply app_eq_nil in Hq as [-> _]. done.
  - assert (is_dir w (r, l)) as [m Hm].
    { rewrite <- (parent_snoc r l x). eapply Hwf, stat_Some_tree; [| done].
      cbn. by destruct l. }
    destruct q as [| y q _] using rev_ind.
    { rewrite app_nil_r in Hq. by subst. }
    rewrite app_assoc in Hq. apply app_inj_tail in Hq as [-> ->].
    destruct (decide (p = p ++ q)) as [Heq | Hne'];
      [exists m; by rewrite Heq |].
    eapply IH; [done | by exists q | done].
Qed.

Lemma mkdir_at_inv (name : string) k (perm : Z) w w' (e : option error) :
  mkdir_at name k perm w = (w', e) ->
  match e with
  | Some _ => w' = w
  | None =>
      stat w k = None /\ is_dir w (parent k) /\
      w' = with_tree w (<[k := Directory (created_mode w perm)]> (tree w))
  end.
Proof.
  unfold mkdir_at. destruct (stat w k) eqn:Hk; [by intros [= <- <-] |].
  destruct (stat w (parent k)) as [[m | m d] |] eqn:Hp; intros [= <- <-]; try done.
  repeat split. by exists m.
Qed.

(** [MkdirAll] adds directories, at places above the path or at the path
    itself, and nothing else changes. *)
Lemma mkdir_all_spec (name : string) (r : bool) (relems : list string)
    (perm : Z) w w' (e : option error) :
  mkdir_all name r relems perm w = (w', e) ->
  (forall k, stat w' k = stat w k \/
             (stat w k = None /\
              stat w' k = Some (Directory (created_mode w perm)) /\
              k.1 = r /\ k.2 `prefix_of` rev relems)) /\
  umask w' = umask w /\ spawned w' = spawned w /\ terminal w' = terminal w /\
  (well_formed w -> well_formed w') /\
  (e = None -> is_dir w' (r, rev relems)).
Proof.
  revert w w' e. induction relems as [| x up IH]; intros w w' e; cbn [mkdir_all].
  - unfold stat at 1. cbn. intros [= <- <-]. repeat split; auto.
    intros _. by exists ModePerm.
  - destruct (stat w (r, rev (x :: up))) as [[m | m d] |] eqn:Hk.
    + intros [= <- <-]. repeat split; auto. intros _. by exists m.
    + intros [= <- <-]. repeat split; auto. done.
    + destruct (mkdir_all name r up perm w) as [w1 [e1 |]] eqn:Hrec;
        apply IH in Hrec as (Hst & Hu & Hs & Ht & Hwf & Hdir).
      * intros [= <- <-]. repeat split; auto; [| done].
        intros k. destruct (Hst k) as [H | (H1 & H2 & H3 & H4)]; [by left |].
        right. repeat split; auto. cbn [rev]. by apply prefix_app_r.
      * specialize (Hdir eq_refl). intros Hmk. apply mkdir_at_inv in Hmk.
        destruct e as [e |].
        -- subst w'. repeat split; auto; [| done].
           intros k. destruct (Hst k) as [H | (H1 & H2 & H3 & H4)]; [by left |].
           right. repeat split; auto. cbn [rev]. by apply prefix_app_r.
        -- destruct Hmk as (Hnone & Hpar & ->). cbn [umask spawned terminal with_tree].
           repeat split; auto.
           ++ intros k. destruct (decide ((r, rev (x :: up)) = k)) as [<- | Hne].
              ** right. rewrite stat_insert_eq by (cbn; by destruct (rev up)).
                 unfold created_mode. rewrite Hu. repeat split; auto.
              ** rewrite stat_insert_ne by done.
                 destruct (Hst k) as [H | (H1 & H2 & H3 & H4)]; [by left |].
                 right. repeat split; auto. cbn [rev]. by apply prefix_app_r.
           ++ intros Hw. apply well_formed_insert; auto.
              intros [m Hm]. congruence.
           ++ intros _. eexists. apply stat_insert_eq. cbn. by destruct (rev up).
Qed.

(** [MkdirAll] fails only on a regular file in its way. *)
Lemma mkdir_all_succeeds (name : string) (r : bool) (relems : list string)
    (perm : Z) w :
  (forall p m d, p `prefix_of` rev relems -> stat w (r, p) <> Some (Regular m d)) ->
  (mkdir_all name r relems perm w).2 = None.
Proof.
  revert w. induction relems as [| x up IH]; intros w Hfree; cbn [mkdir_all].
  - unfold stat. by cbn.
  - destruct (stat w (r, rev (x :: up))) as [[m | m d] |] eqn:Hk; [done | |].
    + by destruct (Hfree (rev (x :: up)) m d).
    + assert ((mkdir_all name r up perm w).2 = None) as Hup.
      { apply IH. intros p m d Hp. apply Hfree. cbn [rev]. by apply prefix_app_r. }
      destruct (mkdir_all name r up perm w) as [w1 e1] eqn:Hrec. cbn in Hup. subst e1.
      apply mkdir_all_spec in Hrec as (Hst & _ & _ & _ & _ & Hdir).
      destruct (Hdir eq_refl) as [m Hm].
      unfold mkdir_at.
      destruct (Hst (r, rev (x :: up))) as [H | (_ & _ & _ & H4)].
      * rewrite H, Hk. cbn [rev]. rewrite parent_snoc, Hm. done.
      * cbn in H4. apply prefix_length in H4. rewrite length_app in H4. cbn in H4. lia.
Qed.

(** The walk to a missing path ends with [ENOENT] when it meets no
    regular file, and with [ENOTDIR], in a well-formed tree, when a
    regular file lies on the way. *)
Lemma walk_errno_clear w (r : bool) (seen rest : list string) :
  (forall p m d, p `prefix_of` rest -> stat w (r, seen ++ p) <> Some (Regular m d)) ->
  walk_errno w r seen rest = ENOENT.
Proof.
  revert seen. induction rest as [| e rest IH]; intros seen Hfree; [done |].
  cbn [walk_errno].
  destruct (stat w (r, seen ++ [e])) as [[m | m d] |] eqn:Hst; [| | done].
  - apply IH. intros p m' d' Hp. rewrite <- app_assoc. cbn [app].
    apply Hfree. by apply prefix_cons.
  - destruct (Hfree [e] m d); [| done]. apply prefix_cons, prefix_nil.
Qed.

Lemma walk_errno_regular w (r : bool) (seen rest p : list string) (m : Z)
    (d : list byte) :
  well_formed w -> p `prefix_of` rest -> p <> [] ->
  stat w (r, seen ++ p) = Some (Regular m d) ->
  walk_errno w r seen rest = ENOTDIR.
Proof.
  intros Hwf. revert seen p.
  induction rest as [| e rest IH]; intros seen p Hp Hne Hst.
  - by apply prefix_nil_inv in Hp.
  - destruct p as [| x p]; [done |].
    pose proof (prefix_cons_inv_1 _ _ _ _ Hp) as ->.
    apply prefix_cons_inv_2 in Hp.
    cbn [walk_errno]. destruct p as [| y p]; [by rewrite Hst |].
    destruct (well_formed_above w r (seen ++ e :: y :: p) (seen ++ [e]) _ Hwf Hst)
      as [m' Hm'].
    + exists (y :: p). by rewrite <- app_assoc.
    + intros E. apply (f_equal length) in E. rewrite !length_app in E. cbn in E. lia.
    + rewrite Hm'. apply (IH _ (y :: p)); [done | done |].
      by rewrite <- app_assoc.
Qed.

Lemma missing_errno_clear w k :
  (forall p m d, p `prefix_of` k.2 -> stat w (k.1, p) <> Some (Regular m d)) ->
  missing_errno w k = ENOENT.
Proof. intros H. by apply walk_errno_clear. Qed.

Lemma missing_errno_regular w k (p : list string) (m : Z) (d : list byte) :
  well_formed w -> p `prefix_of` k.2 -> stat w (k.1, p) = Some (Regular m d) ->
  missing_errno w k = ENOTDIR.
Proof.
  intros Hwf Hp Hst. apply (walk_errno_regular w k.1 [] k.2 p m d); try done.
  intros ->. by unfold stat in Hst.
Qed.

End FileTree.


Section OpenAndCopy.

Import Os.

Implicit Types (w : World) (k : rpath).

Lemma OpenFile_inv (name : string) (perm : Z) w w' (r : rpath + error) :
  OpenFile name perm w = (w', r) ->
  match r with
  | inr _ => w' = w
  | inl k =>
      resolve name = Some k /\ ~ is_dir w k /\
      exists m, w' = with_tree w (<[k := Regular m []]> (tree w)) /\
        match stat w k with
        | Some (Regular m0 _) => m = m0
        | _ => m = created_mode w perm /\ is_dir w (parent k)
        end
  end.
Proof.
  unfold OpenFile. destruct (resolve name) as [k |]; [| by intros [= <- <-]].
  destruct (stat w k) as [[m | m d] |] eqn:Hk.
  - by intros [= <- <-].
  - intros [= <- <-]. split; [done |]. split; [intros [m' Hm']; congruence |].
    exists m. by rewrite Hk.
  - destruct (stat w (parent k)) as [[m | m d] |] eqn:Hp; intros [= <- <-]; try done.
    split; [done |]. split; [intros [m' Hm']; congruence |].
    eexists. rewrite Hk. repeat split. by exists m.
Qed.

Lemma OpenFile_succeeds (name : string) (perm : Z) w k :
  resolve name = Some k -> ~ is_dir w k -> is_dir w (parent k) ->
  exists w', OpenFile name perm w = (w', inl k).
Proof.
  intros Hk Hnot [m Hm]. unfold OpenFile. rewrite Hk.
  destruct (stat w k) as [[m' | m' d] |] eqn:Hst.
  - destruct Hnot. by exists m'.
  - eauto.
  - rewrite Hm. eauto.
Qed.

(** The copy into the file just opened leaves the file with the bytes
    copied. *)
Lemma write_opened w k (m : Z) (data : list byte) :
  write k data (with_tree w (<[k := Regular m []]> (tree w))) =
  with_tree w (<[k := Regular m data]> (tree w)).
Proof.
  unfold write. cbn. rewrite lookup_insert_eq. unfold with_tree. cbn.
  by rewrite insert_insert_eq.
Qed.

End OpenAndCopy.


(** ** Cleaned paths *)

Section CleanPaths.

Import Filepath.

Lemma append_cons (c : ascii) (a b : string) :
  String c a +:+ b = String c (a +:+ b).
Proof. reflexivity. Qed.

Lemma append_nil_l (b : string) : "" +:+ b = b.
Proof. reflexivity. Qed.

Lemma chars_app (a b : string) : chars (a +:+ b) = chars a ++ chars b.
Proof.
  unfold chars. induction a as [| c a IH]; [done |].
  rewrite append_cons. cbn. by f_equal.
Qed.

Lemma append_assoc (a b c : string) : (a +:+ b) +:+ c = a +:+ b +:+ c.
Proof. induction a as [| x a IH]; [done |]. by rewrite !append_cons, IH. Qed.

Lemma append_nil_r (a : string) : a +:+ "" = a.
Proof. induction a as [| x a IH]; [done |]. by rewrite append_cons, IH. Qed.

Lemma rev_replicate {A} (n : nat) (x : A) : rev (replicate n x) = replicate n x.
Proof.
  induction n as [| n IH]; [done |]. cbn. rewrite IH.
  clear. induction n as [| n IH]; [done |]. cbn. by rewrite IH.
Qed.

Lemma elements_nonempty (p : string) : elements p <> [].
Proof.
  destruct p as [| c p]; cbn; [done |].
  destruct (IsPathSeparator c); [done |]. by destruct (elements p).
Qed.

Lemma no_sep_cons (c : ascii) (e : string) :
  no_sep (String c e) <-> IsPathSeparator c = false /\ no_sep e.
Proof. apply (Forall_cons (fun c => IsPathSeparator c = false)). Qed.

Lemma elements_no_sep (p : string) : Forall no_sep (elements p).
Proof.
  induction p as [| c p IH]; cbn.
  - repeat constructor.
  - destruct (IsPathSeparator c) eqn:Hc.
    + constructor; [constructor | done].
    + destruct (elements p) as [| e es].
      * repeat constructor. done.
      * inversion IH; subst. constructor; [| done]. by apply no_sep_cons.
Qed.

Lemma elements_sep (a b : string) :
  elements (a +:+ String Separator b) = elements a ++ elements b.
Proof.
  induction a as [| c a IH]; [done |]. rewrite append_cons. cbn.
  destruct (IsPathSeparator c); [by rewrite IH |].
  rewrite IH. pose proof (elements_nonempty a). by destruct (elements a).
Qed.

Lemma elements_single (e : string) : no_sep e -> elements e = [e].
Proof.
  induction e as [| c e IH]; [done |]. intros [Hc He]%no_sep_cons.
  cbn. by rewrite Hc, IH.
Qed.

Lemma strings_Join_cons (e : string) (es : list string) :
  es <> [] -> strings_Join (e :: es) "/" = e +:+ String Separator (strings_Join es "/").
Proof. by destruct es. Qed.

Lemma elements_Join (es : list string) :
  es <> [] -> Forall no_sep es -> elements (strings_Join es "/") = es.
Proof.
  induction es as [| e es IH]; [done |]. intros _ Hes. inversion Hes; subst.
  destruct es as [| e' es].
  - by apply elements_single.
  - rewrite strings_Join_cons, elements_sep, elements_single, IH by done. done.
Qed.

Lemma strings_Join_snoc (init : list string) (e : string) :
  init <> [] ->
  strings_Join (init ++ [e]) "/" = strings_Join init "/" +:+ String Separator e.
Proof.
  induction init as [| x init IH]; [done |]. intros _.
  destruct init as [| y init]; [done |].
  change ((x :: y :: init) ++ [e]) with (x :: ((y :: init) ++ [e])).
  rewrite !strings_Join_cons, IH, append_assoc by done. done.
Qed.

(** *** The loop keeps its buffer in form *)

Lemma name_elem_step (r : bool) (out : list string) (e : string) :
  name_elem e -> clean_step r out e = e :: out.
Proof.
  intros (H1 & H2 & H3 & _). unfold clean_step.
  destruct (String.eqb_spec e ""); [done |].
  destruct (String.eqb_spec e "."); [done |].
  by destruct (String.eqb_spec e "..").
Qed.

Lemma clean_step_form (r : bool) (out : list string) (e : string) :
  stack_form r out -> no_sep e -> stack_form r (clean_step r out e).
Proof.
  intros (n & names & -> & Hnames & Hr) He. unfold clean_step.
  destruct (String.eqb_spec e "") as [-> | H1]; [by exists n, names |].
  destruct (String.eqb_spec e ".") as [-> | H2]; [by exists n, names |].
  cbn [orb].
  destruct (String.eqb_spec e "..") as [-> | H3].
  - destruct names as [| top below].
    + destruct n as [| n]; cbn.
      * destruct r; [by exists 0%nat, [] | by exists 1%nat, []].
      * exists (S (S n)), []. repeat split; [done |]. intros Ht. by specialize (Hr Ht).
    + inversion Hnames as [| ? ? (_ & _ & Htop & _) Hbelow]; subst. cbn.
      destruct (String.eqb_spec top ".."); [done |]. by exists n, below.
  - exists n, (e :: names). repeat split; [| done]. by constructor.
Qed.

Lemma fold_clean_form (r : bool) (es out : list string) :
  stack_form r out -> Forall no_sep es ->
  stack_form r (fold_left (clean_step r) es out).
Proof.
  revert out. induction es as [| e es IH]; intros out Hout Hes; [done |].
  inversion Hes; subst. cbn. apply IH; [| done]. by apply clean_step_form.
Qed.

Lemma stack_clean_form (r : bool) (out : list string) :
  stack_form r out -> clean_form r (rev out).
Proof.
  intros (n & names & -> & Hnames & Hr). exists n, (rev names).
  rewrite rev_app_distr, rev_replicate. repeat split; [| done].
  by apply Forall_rev.
Qed.

Lemma clean_elems_form (p : string) : clean_form (is_rooted p) (clean_elems p).
Proof.
  unfold clean_elems, clean_loop. apply stack_clean_form, fold_clean_form.
  - by exists 0%nat, [].
  - apply elements_no_sep.
Qed.

(** *** A cleaned path is read back as it is *)

Lemma fold_dots (n m : nat) :
  fold_left (clean_step false) (replicate n "..") (replicate m "..") =
  replicate (n + m) "..".
Proof.
  revert m. induction n as [| n IH]; intros m; [done |]. cbn [replicate fold_left].
  replace (clean_step false (replicate m "..") "..") with (replicate (S m) "..")
    by (by destruct m).
  rewrite IH. f_equal. lia.
Qed.

Lemma fold_names (r : bool) (names out : list string) :
  Forall name_elem names ->
  fold_left (clean_step r) names out = rev names ++ out.
Proof.
  revert out. induction names as [| e names IH]; intros out Hn; [done |].
  inversion Hn; subst. cbn. rewrite name_elem_step, IH by done.
  by rewrite <- app_assoc.
Qed.

Lemma clean_loop_clean (r : bool) (es : list string) :
  clean_form r es -> clean_loop r [] es = es.
Proof.
  intros (n & names & -> & Hnames & Hr). unfold clean_loop.
  rewrite fold_left_app.
  assert (fold_left (clean_step r) (replicate n "..") [] = replicate n "..") as ->.
  { destruct r; [by rewrite Hr |].
    pose proof (fold_dots n 0) as H. cbn [replicate] in H. rewrite H.
    f_equal. lia. }
  rewrite fold_names, rev_app_distr, rev_involutive, rev_replicate by done. done.
Qed.

Lemma clean_form_no_sep (r : bool) (es : list string) :
  clean_form r es -> Forall no_sep es.
Proof.
  intros (n & names & -> & Hnames & _). apply Forall_app. split.
  - apply Forall_forall. intros e ->%elem_of_replicate_inv. unfold no_sep. cbn.
    repeat constructor.
  - eapply Forall_impl; [done |]. by intros e (_ & _ & _ & He).
Qed.

Lemma clean_form_nonempty (r : bool) (e : string) (es : list string) :
  clean_form r (e :: es) -> exists c e', e = String c e' /\ IsPathSeparator c = false.
Proof.
  intros (n & names & Heq & Hnames & _).
  assert (e = ".." \/ name_elem e) as [-> | (H1 & _ & _ & H4)].
  { destruct n; cbn in Heq.
    - right. destruct names; [done |]. injection Heq as -> ->. by inversion Hnames.
    - left. by injection Heq. }
  - by exists "."%char, ".".
  - destruct e as [| c e']; [done |]. apply no_sep_cons in H4 as [H4 _]. eauto.
Qed.

End CleanPaths.


Section RenderedPaths.

Import Filepath.

Lemma render_rooted (r : bool) (es : list string) :
  clean_form r es -> is_rooted (render r es) = r.
Proof.
  intros Hes. unfold render. destruct r; [done |].
  destruct es as [| e es]; [done |].
  destruct (clean_form_nonempty _ _ _ Hes) as (c & e' & -> & Hc).
  destruct es; [done |]. by rewrite strings_Join_cons.
Qed.

Lemma render_nonempty (r : bool) (es : list string) :
  clean_form r es -> render r es <> "".
Proof.
  intros Hes. unfold render. destruct r; [done |].
  destruct es as [| e es]; [done |].
  destruct (clean_form_nonempty _ _ _ Hes) as (c & e' & -> & Hc).
  destruct es; [done |]. by rewrite strings_Join_cons.
Qed.

Lemma clean_loop_skip (r : bool) (es : list string) :
  clean_loop r [] ("" :: es) = clean_loop r [] es.
Proof. reflexivity. Qed.

Lemma clean_loop_trailing (r : bool) (es : list string) :
  clean_loop r [] (es ++ [""]) = clean_loop r [] es.
Proof. unfold clean_loop. by rewrite fold_left_app. Qed.

Lemma render_elements (r : bool) (es : list string) :
  clean_form r es -> clean_loop r [] (elements (render r es)) = es.
Proof.
  intros Hes. pose proof (clean_form_no_sep _ _ Hes) as Hns.
  unfold render. destruct r.
  - change ("/" +:+ strings_Join es "/") with (String Separator (strings_Join es "/")).
    cbn [elements]. change (IsPathSeparator Separator) with true. cbn match.
    rewrite clean_loop_skip. destruct es as [| e es]; [done |].
    rewrite elements_Join by done. by apply clean_loop_clean.
  - destruct es as [| e es]; [done |].
    rewrite elements_Join by done. by apply clean_loop_clean.
Qed.

(** A cleaned path resolves to its own elements. *)
Lemma resolve_render (r : bool) (es : list string) :
  clean_form r es -> Os.resolve (render r es) = Some (r, es).
Proof.
  intros Hes. unfold Os.resolve.
  destruct (String.eqb_spec (render r es) "") as [E | _].
  - by destruct (render_nonempty _ _ Hes).
  - unfold clean_elems. by rewrite render_rooted, render_elements.
Qed.

Lemma Clean_render (p : string) : Clean p = render (is_rooted p) (clean_elems p).
Proof. unfold Clean. by destruct (String.eqb_spec p "") as [-> | _]. Qed.

Lemma resolve_Clean (p : string) :
  Os.resolve (Clean p) = Some (is_rooted p, clean_elems p).
Proof. rewrite Clean_render. apply resolve_render, clean_elems_form. Qed.

(** *** The directory of a cleaned path *)

Lemma upto_sep_none (l : list ascii) :
  Forall (fun c => IsPathSeparator c = false) l -> upto_sep l = [].
Proof. induction 1 as [| c l Hc _ IH]; [done |]. cbn. by rewrite Hc. Qed.

Lemma upto_sep_app (l m : list ascii) :
  Forall (fun c => IsPathSeparator c = false) l ->
  upto_sep (l ++ Separator :: m) = Separator :: m.
Proof. induction 1 as [| c l Hc _ IH]; [done |]. cbn. by rewrite Hc. Qed.

Lemma Dir_single (e : string) : no_sep e -> Dir e = ".".
Proof.
  intros He. unfold Dir. rewrite upto_sep_none; [done |].
  by apply Forall_rev.
Qed.

Lemma Dir_sep (a e : string) :
  no_sep e -> Dir (a +:+ String Separator e) = Clean (a +:+ "/").
Proof.
  intros He. unfold Dir. rewrite chars_app. cbn [chars list_ascii_of_string].
  rewrite rev_app_distr. cbn [rev]. rewrite <- app_assoc. cbn [app].
  rewrite upto_sep_app by (by apply Forall_rev).
  cbn [rev]. rewrite rev_involutive.
  change [Separator] with (chars "/"). fold (chars a).
  by rewrite <- chars_app, str_chars.
Qed.

Lemma is_rooted_app (a b : string) : a <> "" -> is_rooted (a +:+ b) = is_rooted a.
Proof. by destruct a. Qed.

Lemma Clean_trailing (r : bool) (es : list string) :
  clean_form r es -> Clean (render r es +:+ "/") = render r es.
Proof.
  intros Hes. pose proof (render_nonempty _ _ Hes) as Hne.
  rewrite Clean_render. unfold clean_elems.
  rewrite is_rooted_app, render_rooted by done.
  change "/" with (String Separator "").
  rewrite elements_sep. change (elements "") with [""].
  by rewrite clean_loop_trailing, render_elements.
Qed.

Lemma clean_form_init (r : bool) (init : list string) (e : string) :
  clean_form r (init ++ [e]) -> clean_form r init /\ no_sep e.
Proof.
  intros Hes. split.
  - destruct Hes as (n & names & Heq & Hnames & Hr).
    destruct names as [| x names _] using rev_ind.
    + rewrite app_nil_r in Heq. destruct n as [| n]; [by destruct init |].
      rewrite replicate_S_end in Heq. apply app_inj_tail in Heq as [-> _].
      exists n, []. rewrite app_nil_r. repeat split; [done |].
      intros Ht. by specialize (Hr Ht).
    + rewrite app_assoc in Heq. apply app_inj_tail in Heq as [-> _].
      exists n, names. repeat split; [| done].
      by apply Forall_app in Hnames as [? _].
  - apply clean_form_no_sep, Forall_app in Hes as [_ He]. by inversion He.
Qed.

Lemma Dir_render (r : bool) (es : list string) :
  clean_form r es -> Dir (render r es) = render r (removelast es).
Proof.
  intros Hes. destruct es as [| e init _] using rev_ind.
  - by destruct r.
  - rewrite removelast_last. apply clean_form_init in Hes as [Hinit He].
    destruct init as [| x init].
    + destruct r.
      * change (render true ([] ++ [e])) with ("" +:+ String Separator e).
        by rewrite Dir_sep.
      * by apply Dir_single.
    + assert (render r ((x :: init) ++ [e]) =
              render r (x :: init) +:+ String Separator e) as ->.
      { unfold render. destruct r.
        - rewrite strings_Join_snoc by done. by rewrite append_assoc.
        - by rewrite strings_Join_snoc. }
      rewrite Dir_sep by done. by apply Clean_trailing.
Qed.

(** The directory of a cleaned path resolves to the parent of what the
    path resolves to. *)
Lemma resolve_Dir_Clean (p : string) :
  Os.resolve (Dir (Clean p)) = Some (Os.parent (is_rooted p, clean_elems p)).
Proof.
  pose proof (clean_elems_form p) as Hes.
  rewrite Clean_render, Dir_render by done.
  apply resolve_render.
  destruct (clean_elems p) as [| e init _] using rev_ind; [done |].
  rewrite removelast_last. by apply clean_form_init in Hes as [? _].
Qed.

Lemma Join_Clean (elem : list string) :
  Join elem = "" \/ exists p, Join elem = Clean p.
Proof.
  induction elem as [| e elem IH]; [by left |]. cbn [Join].
  destruct (String.eqb e ""); [done |]. right. eauto.
Qed.

Lemma resolve_Dir_Join (elem : list string) (k : Os.rpath) :
  Os.resolve (Join elem) = Some k ->
  Os.resolve (Dir (Join elem)) = Some (Os.parent k).
Proof.
  destruct (Join_Clean elem) as [-> | [p ->]]; [done |].
  rewrite resolve_Clean. intros [= <-]. apply resolve_Dir_Clean.
Qed.

End RenderedPaths.


(** ** Directories and files put in the tree *)

Section Extraction.

Import Os.

Implicit Types (w : World) (k : rpath).

(** A second [MkdirAll] of the same path changes nothing and ends the
    same way. *)
Lemma mkdir_all_again (name : string) (r : bool) (relems : list string)
    (perm : Z) w w' (e : option error) :
  mkdir_all name r relems perm w = (w', e) ->
  mkdir_all name r relems perm w' = (w', e).
Proof.
  revert w w' e. induction relems as [| x up IH]; intros w w' e; cbn [mkdir_all].
  - unfold stat. cbn. by intros [= <- <-].
  - destruct (stat w (r, rev (x :: up))) as [[m | m d] |] eqn:Hk.
    + intros [= <- <-]. by rewrite Hk.
    + intros [= <- <-]. by rewrite Hk.
    + destruct (mkdir_all name r up perm w) as [w1 e1] eqn:Hrec.
      pose proof (IH _ _ _ Hrec) as Hagain.
      apply mkdir_all_spec in Hrec as (Hst & _).
      assert (stat w1 (r, rev (x :: up)) = None) as Hk1.
      { destruct (Hst (r, rev (x :: up))) as [H | (_ & _ & _ & H4)]; [congruence |].
        cbn in H4. apply prefix_length in H4. rewrite length_app in H4. cbn in H4. lia. }
      destruct e1 as [e1 |].
      * intros [= <- <-]. by rewrite Hk1, Hagain.
      * intros Hmk. pose proof Hmk as Hinv. apply mkdir_at_inv in Hinv.
        destruct e as [e |].
        -- subst w'. by rewrite Hk1, Hagain.
        -- destruct Hinv as (_ & _ & ->).
           by rewrite stat_insert_eq by (cbn; by destruct (rev up)).
Qed.

Lemma MkdirAll_again (name : string) (perm : Z) w :
  MkdirAll name perm (MkdirAll name perm w).1 = MkdirAll name perm w.
Proof.
  unfold MkdirAll. destruct (resolve name) as [k |]; [| done].
  destruct (mkdir_all name k.1 (rev k.2) perm w) as [w' e] eqn:H.
  cbn [fst]. by apply mkdir_all_again in H.
Qed.

Lemma MkdirAll_spec (name : string) (perm : Z) w w' (e : option error) k :
  resolve name = Some k -> MkdirAll name perm w = (w', e) ->
  (forall k', stat w' k' = stat w k' \/
              (stat w k' = None /\
               stat w' k' = Some (Directory (created_mode w perm)) /\
               k'.1 = k.1 /\ k'.2 `prefix_of` k.2)) /\
  umask w' = umask w /\ spawned w' = spawned w /\ terminal w' = terminal w /\
  (well_formed w -> well_formed w') /\
  (e = None -> is_dir w' k).
Proof.
  unfold MkdirAll. intros -> H. apply mkdir_all_spec in H.
  rewrite rev_involutive in H. by destruct k.
Qed.

Lemma MkdirAll_succeeds (name : string) (perm : Z) w k :
  resolve name = Some k ->
  (forall p m d, p `prefix_of` k.2 -> stat w (k.1, p) <> Some (Regular m d)) ->
  (MkdirAll name perm w).2 = None.
Proof.
  unfold MkdirAll. intros -> H. apply mkdir_all_succeeds.
  by rewrite rev_involutive.
Qed.

(** A directory made with all that lies above it. *)
Lemma make_directory (name : string) (perm : Z) w k :
  resolve name = Some k -> well_formed w ->
  (forall p m d, p `prefix_of` k.2 -> stat w (k.1, p) <> Some (Regular m d)) ->
  exists w',
    MkdirAll name perm w = (w', None) /\ well_formed w' /\
    (forall p, p `prefix_of` k.2 -> is_dir w' (k.1, p)) /\
    (forall k', ~ (k'.1 = k.1 /\ k'.2 `prefix_of` k.2) -> stat w' k' = stat w k') /\
    (forall k' n, stat w k' = Some n -> stat w' k' = Some n).
Proof.
  intros Hk Hwf Hfree.
  pose proof (MkdirAll_succeeds name perm w k Hk Hfree) as Hok.
  destruct (MkdirAll name perm w) as [w' e] eqn:Hmk. cbn in Hok. subst e.
  destruct (MkdirAll_spec _ _ _ _ _ _ Hk Hmk) as (Hst & _ & _ & _ & Hwf' & Hdir).
  exists w'. split; [done |]. split; [auto |]. split; [| split].
  - intros p Hp. destruct (Hdir eq_refl) as [m Hm].
    destruct (decide (p = k.2)) as [-> | Hne]; [exists m; by destruct k |].
    eapply well_formed_above; [by apply Hwf' | | done..].
    destruct k; exact Hm.
  - intros k' Hk'. destruct (Hst k') as [H | (_ & _ & H3 & H4)]; [done |].
    by destruct Hk'.
  - intros k' n Hn. destruct (Hst k') as [H | (H1 & _)]; congruence.
Qed.

Lemma prefix_removelast (p l : list string) :
  p `prefix_of` removelast l -> p `prefix_of` l /\ (l <> [] -> p <> l).
Proof.
  destruct l as [| x l _] using rev_ind; [done |].
  rewrite removelast_last. intros Hp. split; [by apply prefix_app_r |].
  intros _ ->. apply prefix_length in Hp. rewrite length_app in Hp. cbn in Hp. lia.
Qed.

(** The file of an archive put at [Join(dest, name)]: its directory is
    made, the file is opened with [perm] and the bytes are copied.
    Nothing but directories may lie above the place, and the place may
    not be a directory. *)
Lemma put_file (dest name : string) (perm : Z)
    (src : list byte * option error) w k :
  let target := Filepath.Join [dest; name] in
  resolve target = Some k -> well_formed w ->
  (forall p m d, p `prefix_of` k.2 -> p <> k.2 ->
                 stat w (k.1, p) <> Some (Regular m d)) ->
  ~ is_dir w k ->
  exists w1 m,
    MkdirAll (Filepath.Dir target) ModePerm w = (w1, None) /\
    OpenFile target perm w1 =
      (with_tree w1 (<[k := Regular m []]> (tree w1)), inl k) /\
    Copy k src (with_tree w1 (<[k := Regular m []]> (tree w1))) =
      (with_tree w1 (<[k := Regular m src.1]> (tree w1)), src.2) /\
    is_dir w1 (parent k) /\ well_formed w1 /\
    well_formed (with_tree w1 (<[k := Regular m src.1]> (tree w1))) /\
    (forall k' n, stat w k' = Some n -> stat w1 k' = Some n) /\
    (stat w k = None -> m = created_mode w perm) /\
    (forall m0 d, stat w k = Some (Regular m0 d) -> m = m0).
Proof.
  intros target Hk Hwf Hfree Hnot.
  pose proof (not_dir_not_anchor _ _ Hnot) as Hne.
  pose proof (resolve_Dir_Join _ _ Hk) as Hdir. fold target in Hdir.
  destruct (make_directory (Filepath.Dir target) ModePerm w (parent k) Hdir Hwf)
    as (w1 & Hmk & Hwf1 & Hdirs & Hframe & Hkeep).
  { intros p m d Hp. cbn in Hp. apply prefix_removelast in Hp as [Hp1 Hp2].
    apply Hfree; auto. }
  assert (stat w1 k = stat w k) as Hsame.
  { apply Hframe. intros [_ Hp]. cbn in Hp. apply prefix_removelast in Hp as [_ Hp].
    by apply Hp. }
  assert (~ is_dir w1 k) as Hnot1.
  { intros [m Hm]. apply Hnot. exists m. congruence. }
  assert (is_dir w1 (parent k)) as Hpar.
  { destruct k as [r l]. by apply (Hdirs (removelast l)). }
  destruct (OpenFile_succeeds target perm w1 k Hk Hnot1 Hpar) as [w2 Hopen].
  pose proof Hopen as Hinv. apply OpenFile_inv in Hinv as (_ & _ & m & -> & Hm).
  exists w1, m. split; [done |]. split; [done |]. split.
  { unfold Copy. by rewrite write_opened. }
  split; [done |]. split; [done |]. split.
  { by apply well_formed_insert. }
  split; [done |]. rewrite Hsame in Hm.
  assert (umask w1 = umask w) as Hu.
  { by destruct (MkdirAll_spec _ _ _ _ _ _ Hdir Hmk) as (_ & ? & _). }
  split.
  - intros Hnone. rewrite Hnone in Hm. destruct Hm as [-> _].
    unfold created_mode. by rewrite Hu.
  - intros m0 d Hreg. by rewrite Hreg in Hm.
Qed.

End Extraction.


(** ** What the specification says of the dispatcher and the strategies *)

Section Dispatch.

Import Os Unarch.

Context {L : Libraries}.

Lemma HasPrefix_head (buf : list byte) (b : byte) (sig : list byte) :
  Bytes.HasPrefix buf (b :: sig) = true -> exists t, buf = b :: t.
Proof.
  destruct buf as [| c t]; [done |]. cbn.
  intros [Hb _]%andb_true_iff. apply Byte.byte_dec_bl in Hb as ->. eauto.
Qed.

Lemma HasPrefix_app (buf pad sig : list byte) :
  Bytes.HasPrefix buf sig = true -> Bytes.HasPrefix (buf ++ pad) sig = true.
Proof.
  revert buf. induction sig as [| b sig IH]; intros buf; [done |].
  destruct buf as [| c buf]; [done |]. cbn.
  intros [-> H]%andb_true_iff. by rewrite IH.
Qed.

Lemma untar_filter_table (buf : list byte) :
  untar_filter buf = Spec.filter_for buf.
Proof.
  unfold untar_filter, Spec.filter_for, Spec.filters. cbn [List.find fst].
  repeat (match goal with |- context [Bytes.HasPrefix buf ?sig] =>
            destruct (Bytes.HasPrefix buf sig); [reflexivity |] end).
  reflexivity.
Qed.

Lemma untar_regular_file (w : World) (src dest : string) (data : list byte) :
  Spec.regular_file w src data ->
  untar src dest w =
    let flt := untar_filter (Bytes.fill 6 data) in
    match NewReader flt data with
    | Some err => (w, Some err)
    | None => untar_loop dest (tar_NewReader flt data) w
    end.
Proof.
  intros (k & mode & Hk & Hst). unfold untar, Open. rewrite Hk, Hst.
  unfold Read, contents. cbn [file_node].
  destruct data as [| b data]; reflexivity.
Qed.

Lemma unzip_regular_file (w : World) (src dest : string) (data : list byte) :
  Spec.regular_file w src data ->
  unzip src dest w =
    match zip_OpenReader data with
    | inr err => (w, Some err)
    | inl files => unzip_loop dest files w
    end.
Proof.
  intros (k & m & Hk & Hst). unfold unzip, Open, contents. by rewrite Hk, Hst.
Qed.

(** C3. The streaming-tar strategy takes no tag: every tag of the tar
    family gives the same run.  On a regular file the filter is the one of
    the table for the first six bytes of the file (in a buffer of six
    bytes, zero where the file is shorter), and no filter when the buffer
    starts with no signature of the table. *)
Theorem filter_from_first_six_bytes (w : World) (src dest : string) :
  (forall t1 t2, In t1 Spec.tar_family -> In t2 Spec.tar_family ->
     extract t1 src dest w = extract t2 src dest w) /\
  (forall data, Spec.regular_file w src data ->
     let first6 := take 6 data in
     let buf := first6 ++ replicate (6 - length first6) x00 in
     let flt := Spec.filter_for buf in
     (forall tag, In tag Spec.tar_family ->
        extract tag src dest w =
          Some match NewReader flt data with
               | Some err => (w, Some err)
               | None => untar_loop dest (tar_NewReader flt data) w
               end) /\
     (forall sig f, In (sig, f) Spec.filters ->
        Bytes.HasPrefix first6 sig = true -> flt = f) /\
     ((forall sig f, In (sig, f) Spec.filters -> Bytes.HasPrefix buf sig = false) ->
      flt = Plain)).
Proof.
  assert (forall tag, In tag Spec.tar_family ->
            extract tag src dest w = Some (untar src dest w)) as Hroute.
  { intros tag Htag. cbn in Htag.
    repeat (destruct Htag as [<- | Htag]; [reflexivity |]). destruct Htag. }
  split; [intros t1 t2 H1 H2; by rewrite !Hroute |].
  intros data Hfile first6 buf flt.
  assert (Bytes.fill 6 data = buf) as Hbuf.
  { rewrite <- fill_take. unfold buf, first6. apply fill_short.
    rewrite length_take. lia. }
  split; [| split].
  - intros tag Htag. rewrite Hroute by done.
    rewrite (untar_regular_file _ _ _ _ Hfile). cbn zeta.
    by rewrite Hbuf, untar_filter_table.
  - intros sig f Hin Hpre.
    apply (HasPrefix_app _ (replicate (6 - length first6) x00)) in Hpre.
    fold buf in Hpre. unfold flt. clearbody buf. cbn in Hin.
    repeat (destruct Hin as [[= <- <-] | Hin];
            [apply HasPrefix_head in Hpre as Hhd; destruct Hhd as [t ->];
             unfold Spec.filter_for, Spec.filters; cbn [List.find fst];
             cbn in Hpre |- *; by rewrite ?Hpre |]).
    destruct Hin.
  - intros Hnone. unfold flt, Spec.filter_for, Spec.filters. cbn [List.find fst].
    rewrite (Hnone [x1f; x8b] Gzip), (Hnone [x42; x5a; x68] Bzip2),
      (Hnone [xfd; x37; x7a; x58; x5a; x00] Xz), (Hnone [x28; xb5; x2f; xfd] Zstd)
      by (cbn; tauto).
    reflexivity.
Qed.

(** C4. Detection fails with the unknown-format error exactly on a
    regular file whose buffer starts with no signature of the table and
    whose name ends with no extension of the table; and when detection
    fails, [main] prints the error and exits with status 1, the file tree
    as it was and no command started. *)
Theorem unknown_format_stops_main (w : World) (name : string) :
  (detectArchiveType w name = inr Spec.unknown_format <->
   exists data,
     Spec.regular_file w name data /\
     Spec.signature_tag (Bytes.fill 16 data) = None /\
     Spec.has_extension name = false) /\
  (forall err prog rest,
     detectArchiveType w name = inr err ->
     main (prog :: name :: rest) w =
       (Println ("error detecting archive type: " +:+ Error err) w, 1%Z) /\
     tree (main (prog :: name :: rest) w).1 = tree w /\
     spawned (main (prog :: name :: rest) w).1 = spawned w).
Proof.
  split; [apply unknown_format_exactly |].
  intros err prog rest H. unfold main. by rewrite H.
Qed.

Lemma single_file_command_supported (typ src : string) :
  In typ Spec.single_file_tools ->
  exists tool, single_file_command typ src = Some (tool, ["-k"; "-c"; src]) /\
               In (typ, tool) [("gz", "gunzip"); ("bz2", "bunzip2");
                               ("xz", "unxz"); ("zst", "unzstd")].
Proof.
  cbn. intros [<- | [<- | [<- | [<- | []]]]]; eexists; (split; [reflexivity |]);
    cbn; tauto.
Qed.

Lemma single_file_command_unsupported (typ src : string) :
  ~ In typ Spec.single_file_tools -> single_file_command typ src = None.
Proof.
  intros Hnot. unfold single_file_command.
  repeat (match goal with |- context [String.eqb typ ?t] =>
            destruct (String.eqb_spec typ t) as [-> | _];
            [destruct Hnot; cbn; tauto |] end).
  reflexivity.
Qed.

(** C5. The single-file strategy on a tag outside gz, bz2, xz, zst:
    the unsupported-compression-type error, nothing created and no
    command started.  The dispatcher sends [lz] and [lzma] there, tags
    the classifier does return, and [main] then exits with status 1. *)
Theorem unsupported_single_file (src dest : string) (w : World) :
  (forall typ, ~ In typ Spec.single_file_tools ->
     extractSingleFile src dest typ w = (w, Some Spec.unsupported_compression_type)) /\
  (forall typ, In typ ["lz"; "lzma"] ->
     extract typ src dest w = Some (extractSingleFile src dest typ w) /\
     extract typ src dest w = Some (w, Some Spec.unsupported_compression_type)) /\
  (forall typ prog, In typ ["lz"; "lzma"] ->
     detectArchiveType w src = inl typ ->
     main [prog; src; dest] w =
       (Println "extraction error: unsupported single file compression type" w, 1%Z)) /\
  detectArchiveType Scenario.world "x.tar.lz" = inl "lz" /\
  detectArchiveType Scenario.world "notes.lzma" = inl "lzma".
Proof.
  assert (forall typ, ~ In typ Spec.single_file_tools ->
     extractSingleFile src dest typ w = (w, Some Spec.unsupported_compression_type)) as H1.
  { intros typ Hnot. unfold extractSingleFile.
    by rewrite single_file_command_unsupported. }
  assert (forall typ, In typ ["lz"; "lzma"] -> ~ In typ Spec.single_file_tools) as Hlz.
  { cbn. intros typ [<- | [<- | []]]; intros [H | [H | [H | [H | []]]]]; discriminate H. }
  assert (forall typ, In typ ["lz"; "lzma"] ->
     extract typ src dest w = Some (extractSingleFile src dest typ w)) as Hroute.
  { cbn. by intros typ [<- | [<- | []]]. }
  split; [exact H1 |]. split; [| split; [| by vm_compute]].
  - intros typ Htyp. split; [by apply Hroute |].
    rewrite Hroute by done. by rewrite H1 by auto.
  - intros typ prog Htyp Hdet. unfold main. rewrite Hdet, Hroute by done.
    by rewrite H1 by auto.
Qed.

End Dispatch.


(** ** The tests that run, against what they test *)

Section Tests.

Import Os.

Lemma is_dirb_true (w : World) (k : rpath) : is_dirb w k = true <-> is_dir w k.
Proof.
  unfold is_dirb, is_dir. destruct (stat w k) as [[m | m d] |]; split;
    try done; eauto; by intros [? ?].
Qed.

Lemma is_dirb_false (w : World) (k : rpath) : is_dirb w k = false -> ~ is_dir w k.
Proof. intros H Hd%is_dirb_true. congruence. Qed.

Lemma well_formedb_true (w : World) : well_formedb w = true -> well_formed w.
Proof.
  unfold well_formedb. rewrite forallb_forall. intros H k n Hk.
  apply is_dirb_true. apply (H (k, n)).
  by apply list_elem_of_In, elem_of_map_to_list.
Qed.

Lemma prefixes_all (p l : list string) : p `prefix_of` l -> In p (prefixes l).
Proof.
  revert p. induction l as [| x l IH]; intros p Hp.
  - apply prefix_nil_inv in Hp as ->. by left.
  - destruct p as [| y p]; [by left |].
    apply prefix_cons_inv_1 in Hp as Hxy. apply prefix_cons_inv_2 in Hp. subst y.
    right. apply in_map. by apply IH.
Qed.

Lemma clear_aboveb_true (w : World) (k : rpath) :
  clear_aboveb w k = true -> clear_above w k.
Proof.
  unfold clear_aboveb. rewrite forallb_forall. intros H p m d Hp Hne Hst.
  apply prefixes_all, H in Hp. rewrite Hst, orb_false_r in Hp.
  by apply bool_decide_eq_true in Hp.
Qed.

Lemma scenario_well_formed : well_formed Scenario.world.
Proof. apply well_formedb_true. by vm_compute. Qed.

End Tests.


(** ** What the specification says of the files written *)

Section Written.

Import Os Unarch.

Context {L : Libraries}.

Implicit Types (w : World) (k : rpath).



Lemma untar_entry_reg (dest : string) (h : Tar.Header)
    (body : list byte * option error) w :
  Tar.Typeflag h = Tar.TypeReg ->
  untar_entry dest h body w =
    let target := Filepath.Join [dest; Tar.Name h] in
    let w1 := (MkdirAll (Filepath.Dir target) ModePerm w).1 in
    match Create target w1 with
    | (w2, inr err) => (w2, Some err)
    | (w2, inl outFile) => Copy outFile body w2
    end.
Proof. intros H. unfold untar_entry. by rewrite H. Qed.


(** A regular entry of a tar stream, written. *)
Lemma untar_entry_written (dest : string) (h : Tar.Header)
    (body : list byte * option error) w k :
  Tar.Typeflag h = Tar.TypeReg ->
  resolve (Filepath.Join [dest; Tar.Name h]) = Some k ->
  well_formed w -> clear_above w k -> ~ is_dir w k ->
  exists w' m,
    untar_entry dest h body w = (w', body.2) /\ well_formed w' /\
    is_dir w' (parent k) /\ stat w' k = Some (Regular m body.1) /\
    (forall k' n, k' <> k -> stat w k' = Some n -> stat w' k' = Some n) /\
    (stat w k = None -> m = Z.ldiff 438 (umask w)).
Proof.
  intros Hreg Hk Hwf Hclear Hnot.
  pose proof (not_dir_not_anchor _ _ Hnot) as Hne.
  destruct (put_file dest (Tar.Name h) 438 body w k Hk Hwf Hclear Hnot)
    as (w1 & m & Hmk & Hopen & Hcopy & Hpar & Hwf1 & Hwf' & Hkeep & Hnew & _).
  exists (with_tree w1 (<[k := Regular m body.1]> (tree w1))), m.
  rewrite untar_entry_reg by done. cbn zeta. unfold Create. rewrite Hmk. cbn [fst].
  rewrite Hopen, Hcopy. split; [done |]. split; [done |].
  split; [| split; [| split]].
  - destruct Hpar as [m' Hm']. exists m'. rewrite stat_insert_ne; [done |].
    intros E. apply Hnot. exists m'. rewrite E in Hm' at 1.
    destruct (MkdirAll_spec _ _ _ _ _ _ (resolve_Dir_Join _ _ Hk) Hmk) as (Hst & _).
    destruct (Hst k) as [H | (_ & _ & _ & H4)]; [congruence |].
    cbn in H4. apply prefix_removelast in H4 as [_ H4]. by destruct (H4 Hne).
  - by apply stat_insert_eq.
  - intros k' n Hk' Hn. rewrite stat_insert_ne by done. by apply Hkeep.
  - intros Hnone. by rewrite (Hnew Hnone).
Qed.

(** A file of a zip archive, written. *)
Lemma unzip_file_written (dest : string) (f : Zip.File)
    (rc : list byte * option error) w k :
  IsDir (Zip.Mode f) = false -> Zip.Open f = inl rc ->
  resolve (Filepath.Join [dest; Zip.Name f]) = Some k ->
  well_formed w -> clear_above w k -> ~ is_dir w k ->
  exists w' m,
    unzip_file dest f w = (w', rc.2) /\ well_formed w' /\
    stat w' k = Some (Regular m rc.1) /\
    (stat w k = None -> m = Z.ldiff (syscallMode (Zip.Mode f)) (umask w)).
Proof.
  intros Hfile Hrc Hk Hwf Hclear Hnot.
  pose proof (not_dir_not_anchor _ _ Hnot) as Hne.
  destruct (put_file dest (Zip.Name f) (Zip.Mode f) rc w k Hk Hwf Hclear Hnot)
    as (w1 & m & Hmk & Hopen & Hcopy & Hpar & Hwf1 & Hwf' & Hkeep & Hnew & _).
  exists (with_tree w1 (<[k := Regular m rc.1]> (tree w1))), m.
  unfold unzip_file. rewrite Hfile, Hmk. cbn [fst]. rewrite Hopen, Hrc, Hcopy.
  split; [done |]. split; [done |]. split; [by apply stat_insert_eq |].
  intros Hnone. by rewrite (Hnew Hnone).
Qed.

Lemma untar_loop_modes (dest : string) (f : Tar.Header -> Z) (s : Tar.Stream) w :
  untar_loop dest (Tar.with_modes f s) w = untar_loop dest s w.
Proof.
  revert w. induction s as [| err | h body rest IH]; intros w; [done.. |].
  cbn [Tar.with_modes untar_loop].
  change (untar_entry dest (Tar.mkHeader (Tar.Name h) (Tar.Typeflag h) (f h)) body w)
    with (untar_entry dest h body w).
  destruct (untar_entry dest h body w) as [w1 [e |]]; [done |]. apply IH.
Qed.



(** C10. The run of the streaming-tar strategy is the same whatever the
    modes in the headers of the entries.  A regular file that it creates
    has the mode 0o666 less the umask; a file that the zip strategy
    creates has the mode of its entry less the umask. *)
Theorem tar_mode_not_applied (dest name : string)
    (body : list byte * option error) w :
  (forall f stream,
     untar_loop dest (Tar.with_modes f stream) w = untar_loop dest stream w) /\
  (forall k,
     resolve (Filepath.Join [dest; name]) = Some k ->
     well_formed w -> clear_above w k -> stat w k = None ->
     (forall mode, exists w',
        untar_entry dest (Tar.mkHeader name Tar.TypeReg mode) body w = (w', body.2) /\
        stat w' k = Some (Regular (Z.ldiff 438 (umask w)) body.1)) /\
     (forall mode, IsDir mode = false -> exists w',
        unzip_file dest (Zip.mkFile name mode (inl body)) w = (w', body.2) /\
        stat w' k = Some (Regular (Z.ldiff (syscallMode mode) (umask w)) body.1))).
Proof.
  split; [intros f stream; apply untar_loop_modes |].
  intros k Hk Hwf Hclear Hnone.
  assert (~ is_dir w k) as Hnot by (intros [m Hm]; congruence).
  split.
  - intros mode.
    destruct (untar_entry_written dest (Tar.mkHeader name Tar.TypeReg mode) body w k)
      as (w' & m & H1 & _ & _ & H4 & _ & H6); try done.
    exists w'. by rewrite <- (H6 Hnone).
  - intros mode Hmode.
    destruct (unzip_file_written dest (Zip.mkFile name mode (inl body)) body w k)
      as (w' & m & H1 & _ & H3 & H4); try done.
    exists w'. specialize (H4 Hnone). cbn in H4. by subst m.
Qed.

End Written.


Section Placed.

Import Os Unarch Filepath.

Context {L : Libraries}.

Implicit Types (w : World) (k : rpath).

Lemma name_elem_not_rooted (b : string) : name_elem b -> is_rooted b = false.
Proof.
  intros (Hb & _ & _ & Hs). destruct b as [| c b]; [done |].
  by apply no_sep_cons in Hs as [Hc _].
Qed.

(** A name joined to a directory lies in that directory, under that
    name. *)
Lemma resolve_Join_name (dest b : string) :
  name_elem b ->
  resolve (Join [dest; b]) = Some (is_rooted dest, clean_elems dest ++ [b]).
Proof.
  intros Hb. pose proof Hb as (Hb1 & _ & _ & Hb4). cbn [Join].
  destruct (String.eqb_spec dest "") as [-> | Hd].
  - destruct (String.eqb_spec b ""); [done |]. cbn [strings_Join].
    rewrite resolve_Clean, name_elem_not_rooted by done.
    unfold clean_elems, clean_loop. rewrite elements_single by done.
    cbn [fold_left]. by rewrite name_elem_step.
  - rewrite resolve_Clean.
    change (strings_Join [dest; b] "/") with (dest +:+ String Separator b).
    rewrite is_rooted_app by done. unfold clean_elems, clean_loop.
    rewrite is_rooted_app, elements_sep, (elements_single b), fold_left_app by done.
    cbn [fold_left]. by rewrite name_elem_step.
Qed.

Lemma last_elem_no_sep (r : list ascii) :
  Forall (fun c => IsPathSeparator c = false) (last_elem r).
Proof.
  induction r as [| c r IH]; cbn; [constructor |].
  destruct (IsPathSeparator c) eqn:Hc; by constructor.
Qed.

(** The base name is a name, but for [.], [..] and [/]. *)
Lemma Base_cases (path : string) :
  Base path = "." \/ Base path = ".." \/ Base path = "/" \/ name_elem (Base path).
Proof.
  unfold Base. destruct (String.eqb path ""); [by left |].
  pose proof (last_elem_no_sep (strip_seps (rev (chars path)))) as Hns.
  destruct (last_elem (strip_seps (rev (chars path)))) as [| c e] eqn:He;
    [by right; right; left |].
  set (b := str (rev (c :: e))).
  destruct (string_dec b ".") as [-> | H1]; [by left |].
  destruct (string_dec b "..") as [-> | H2]; [by right; left |].
  right. right. right. repeat split; [| done..|].
  - intros Hb. apply (f_equal chars) in Hb. unfold b in Hb.
    rewrite chars_str in Hb. cbn in Hb. by destruct (rev e).
  - unfold no_sep, b. rewrite chars_str. by apply Forall_rev.
Qed.

(** C8. The single-file strategy, for a tag that has a tool: the tool
    is run with [-k -c] and the source, once; the file
    [Join(dest, Base(src))] is created, or emptied if it is there, and
    it ends up holding the standard output of the tool (if the tool left
    it in place); the error is the one of the run.  Unless the base name
    of the source is [.], [..] or [/], the file lies in the destination
    directory under that very name. *)
Theorem single_file_output (src dest typ : string) w k :
  In typ Spec.single_file_tools ->
  resolve (Join [dest; Base src]) = Some k ->
  ~ is_dir w k -> is_dir w (parent k) ->
  exists tool w1 m0,
    In (typ, tool) [("gz", "gunzip"); ("bz2", "bunzip2");
                    ("xz", "unxz"); ("zst", "unzstd")] /\
    Create (Join [dest; Base src]) w = (w1, inl k) /\
    stat w1 k = Some (Regular m0 []) /\
    (forall m d,
       Exec.after (exec_Run tool ["-k"; "-c"; src] (tree w1)) !! k
         = Some (Regular m d) ->
       exists w',
         extractSingleFile src dest typ w =
           (w', Exec.status (exec_Run tool ["-k"; "-c"; src] (tree w1))) /\
         stat w' k =
           Some (Regular m (Exec.Stdout (exec_Run tool ["-k"; "-c"; src] (tree w1)))) /\
         spawned w' = spawned w ++ [(tool, ["-k"; "-c"; src])]) /\
    (Base src <> "." -> Base src <> ".." -> Base src <> "/" ->
     k = (is_rooted dest, clean_elems dest ++ [Base src])).
Proof.
  intros Htyp Hk Hnot Hpar.
  pose proof (not_dir_not_anchor _ _ Hnot) as Hne.
  destruct (single_file_command_supported typ src Htyp) as (tool & Hcmd & Htool).
  destruct (OpenFile_succeeds (Join [dest; Base src]) 438 w k Hk Hnot Hpar)
    as [w1 Hopen].
  pose proof Hopen as Hinv. apply OpenFile_inv in Hinv as (_ & _ & m0 & -> & _).
  exists tool, (with_tree w (<[k := Regular m0 []]> (tree w))), m0.
  split; [done |]. split; [done |]. split; [by apply stat_insert_eq |]. split.
  - intros m d Hafter. eexists. unfold extractSingleFile, Create.
    rewrite Hcmd, Hopen. unfold Run, write. cbn [tree]. rewrite Hafter.
    split; [reflexivity |]. split; [| done].
    unfold stat. destruct k.2; [done |]. cbn. apply lookup_insert_eq.
  - intros H1 H2 H3.
    destruct (Base_cases src) as [H | [H | [H | Hname]]]; [done.. |].
    rewrite resolve_Join_name in Hk by done. congruence.
Qed.

(** C9. Both container strategies write the file of an entry at
    [Join(dest, name)], the name taken as it is: with the destination
    [out] and the name [../evil.txt] that place is [evil.txt], beside
    [out] and not in it.  The body of either loop puts the bytes of the
    entry there; so do [untar] and [unzip] themselves on any archive in
    which the libraries find that entry, whatever the libraries; and so
    does [main], on a tar and on a zip archive that hold the entry after
    others, ending with status 0. *)
Theorem extraction_not_confined :
  exists (dest name : string) (root k : rpath) (w : World),
    resolve dest = Some root /\ is_dir w root /\
    resolve (Join [dest; name]) = Some k /\
    Spec.within root k = false /\ stat w k = None /\
    (forall mode body, exists w' m,
       untar_entry dest (Tar.mkHeader name Tar.TypeReg mode) body w = (w', body.2) /\
       stat w' k = Some (Regular m body.1)) /\
    (forall mode body, IsDir mode = false -> exists w' m,
       unzip_file dest (Zip.mkFile name mode (inl body)) w = (w', body.2) /\
       stat w' k = Some (Regular m body.1)) /\
    (forall (L' : Libraries) (src : string) (data : list byte) mode body,
       Spec.regular_file w src data ->
       NewReader (L := L') (untar_filter (Bytes.fill 6 data)) data = None ->
       tar_NewReader (Libraries := L') (untar_filter (Bytes.fill 6 data)) data =
         Tar.Entry (Tar.mkHeader name Tar.TypeReg mode) body Tar.AtEOF ->
       exists w' m,
         untar (L := L') src dest w = (w', body.2) /\
         stat w' k = Some (Regular m body.1)) /\
    (forall (L' : Libraries) (src : string) (data : list byte) mode body,
       Spec.regular_file w src data -> IsDir mode = false ->
       zip_OpenReader (Libraries := L') data =
         inl [Zip.mkFile name mode (inl body)] ->
       exists w' m,
         unzip (L := L') src dest w = (w', body.2) /\
         stat w' k = Some (Regular m body.1)) /\
    (main (L := Scenario.libraries) ["unarch"; "a.tar"; dest] w).2 = 0%Z /\
    stat (main (L := Scenario.libraries) ["unarch"; "a.tar"; dest] w).1 k =
      Some (Regular 420 Scenario.payload) /\
    (main (L := Scenario.libraries) ["unarch"; "a.zip"; dest] w).2 = 0%Z /\
    stat (main (L := Scenario.libraries) ["unarch"; "a.zip"; dest] w).1 k =
      Some (Regular 384 Scenario.payload).
Proof.
  exists "out", Scenario.evil, (false, ["out"]), (false, ["evil.txt"]), Scenario.world.
  assert (clear_above Scenario.world (false, ["evil.txt"])) as Hclear
    by (apply clear_aboveb_true; by vm_compute).
  assert (~ is_dir Scenario.world (false, ["evil.txt"])) as Hnot
    by (apply is_dirb_false; by vm_compute).
  assert (forall mode body, exists w' m,
            untar_entry "out" (Tar.mkHeader Scenario.evil Tar.TypeReg mode) body
              Scenario.world = (w', body.2) /\
            stat w' (false, ["evil.txt"]) = Some (Regular m body.1)) as Htar.
  { intros mode body.
    destruct (untar_entry_written "out" (Tar.mkHeader Scenario.evil Tar.TypeReg mode)
                body Scenario.world (false, ["evil.txt"]))
      as (w' & m & H1 & _ & _ & H4 & _); try done; [apply scenario_well_formed |].
    by exists w', m. }
  assert (forall mode body, IsDir mode = false -> exists w' m,
            unzip_file "out" (Zip.mkFile Scenario.evil mode (inl body))
              Scenario.world = (w', body.2) /\
            stat w' (false, ["evil.txt"]) = Some (Regular m body.1)) as Hzip.
  { intros mode body Hmode.
    destruct (unzip_file_written "out" (Zip.mkFile Scenario.evil mode (inl body))
                body Scenario.world (false, ["evil.txt"]))
      as (w' & m & H1 & _ & H3 & _); try done; [apply scenario_well_formed |].
    by exists w', m. }
  split; [done |]. split; [eexists; by vm_compute |]. split; [done |].
  split; [done |]. split; [by vm_compute |].
  split; [exact Htar |]. split; [exact Hzip |]. split; [| split].
  - intros L' src data mode body Hfile Hnew Hstream.
    destruct (Htar mode body) as (w' & m & Hrun & Hst). exists w', m.
    split; [| done].
    rewrite (untar_regular_file (L := L') _ _ _ _ Hfile). cbn zeta.
    rewrite Hnew, Hstream. cbn [untar_loop]. rewrite Hrun.
    by destruct body.2.
  - intros L' src data mode body Hfile Hmode Hfiles.
    destruct (Hzip mode body Hmode) as (w' & m & Hrun & Hst). exists w', m.
    split; [| done].
    rewrite (unzip_regular_file (L := L') _ _ _ _ Hfile), Hfiles.
    cbn [unzip_loop]. rewrite Hrun. by destruct body.2.
  - by vm_compute.
Qed.

(** An absolute name does not leave the destination: the join keeps it
    below. *)
Lemma absolute_name_stays_inside :
  Join ["out"; "/etc/passwd"] = "out/etc/passwd" /\
  Spec.within (false, ["out"]) (false, ["out"; "etc"; "passwd"]) = true.
Proof. by vm_compute. Qed.

End Placed.


(** ** The theorems at work in the small world *)

Lemma scenario_regular_file (name : string) (mode : Z) (data : list byte) :
  Os.tree Scenario.world !! Scenario.here [name] = Some (Os.Regular mode data) ->
  Os.resolve name = Some (Scenario.here [name]) ->
  Spec.regular_file Scenario.world name data.
Proof. intros H1 H2. by exists (Scenario.here [name]), mode. Qed.

(** The file [x.gz] starts with the gzip signature: it is a [tar.gz]. *)
Lemma signature_decides_tag_witness :
  Unarch.detectArchiveType Scenario.world "x.gz" = inl "tar.gz".
Proof.
  apply (signature_decides_tag Scenario.world "x.gz" [x1f; x8b] [x08; x00] "tar.gz").
  - cbn. tauto.
  - apply (scenario_regular_file "x.gz" 420); by vm_compute.
Defined.

(** Two tags of the tar family, one run. *)
Lemma filter_from_first_six_bytes_witness :
  Unarch.extract (L := Scenario.libraries) "tar.lzma" "x.gz" "out" Scenario.world =
  Unarch.extract (L := Scenario.libraries) "tar.gz" "x.gz" "out" Scenario.world /\
  Spec.filter_for [x1f; x8b; x08; x00; x00; x00] = Gzip.
Proof.
  destruct (filter_from_first_six_bytes (L := Scenario.libraries)
              Scenario.world "x.gz" "out") as [Hsame Hfile].
  split; [apply Hsame; cbn; tauto |].
  destruct (Hfile [x1f; x8b; x08; x00]) as (_ & H2 & _).
  - apply (scenario_regular_file "x.gz" 420); by vm_compute.
  - apply (H2 [x1f; x8b]); [cbn; tauto | reflexivity].
Defined.

(** [blob.bin]: no signature, no extension; [main] stops at once. *)
Lemma unknown_format_stops_main_witness :
  Unarch.main (L := Scenario.libraries) ["unarch"; "blob.bin"; "out"] Scenario.world =
  (Os.Println "error detecting archive type: unknown archive type" Scenario.world, 1%Z).
Proof.
  destruct (unknown_format_stops_main (L := Scenario.libraries)
              Scenario.world "blob.bin") as [Hiff Hmain].
  apply (Hmain Spec.unknown_format "unarch" ["out"]), Hiff.
  exists [xde; xad; xbe; xef]. split; [| by vm_compute].
  apply (scenario_regular_file "blob.bin" 420); by vm_compute.
Defined.

(** [notes.lzma] is classified [lzma], for which there is no tool. *)
Lemma unsupported_single_file_witness :
  Unarch.main (L := Scenario.libraries) ["unarch"; "notes.lzma"; "out"] Scenario.world =
  (Os.Println "extraction error: unsupported single file compression type"
     Scenario.world, 1%Z).
Proof.
  destruct (unsupported_single_file (L := Scenario.libraries)
              "notes.lzma" "out" Scenario.world) as (_ & _ & Hmain & _ & Hlzma).
  apply (Hmain "lzma" "unarch"); [cbn; tauto | exact Hlzma].
Defined.

(** The empty file has no extension of the table either. *)
Lemma short_file_falls_through_witness :
  Unarch.detectArchiveType Scenario.world "empty" = inr Spec.unknown_format.
Proof.
  destruct (short_file_falls_through Scenario.world "empty" []) as [H _].
  - apply (scenario_regular_file "empty" 420); by vm_compute.
  - cbn. lia.
  - rewrite H. by vm_compute.
Defined.

(** Five bytes that the zero of the buffer completes to the xz signature:
    the file is classified [tar.xz], and the streaming-tar strategy would
    read it through the xz filter. *)
Lemma short_file_completed_by_zero :
  Unarch.detectArchiveType Scenario.world "short.bin" = inl "tar.xz" /\
  Bytes.HasPrefix [xfd; x37; x7a; x58; x5a] [xfd; x37; x7a; x58; x5a; x00] = false /\
  Unarch.untar_filter (Bytes.fill 6 [xfd; x37; x7a; x58; x5a]) = Xz.
Proof. by vm_compute. Qed.

(** C3, with the default read on the bytes of the file, fails on
    [short.bin]: none of the four signatures is a prefix of the five
    bytes of the file, yet [untar] builds the xz reader, whose error it
    returns; read without a filter, the file would have failed in the tar
    reader. *)
Lemma filter_default_counterexample :
  let data := [xfd; x37; x7a; x58; x5a] in
  Spec.regular_file Scenario.world "short.bin" data /\
  forallb (fun sf => negb (Bytes.HasPrefix (take 6 data) sf.1)) Spec.filters = true /\
  Unarch.untar_filter (Bytes.fill 6 data) = Xz /\
  Unarch.untar (L := Strict.libraries) "short.bin" "out" Scenario.world =
    (Scenario.world, Some (Os.errorString "xz: unexpected EOF")) /\
  Unarch.untar_loop "out"
    (tar_NewReader (Libraries := Strict.libraries) Plain data) Scenario.world =
    (Scenario.world, Some (Os.errorString "archive/tar: unexpected EOF")).
Proof.
  cbv zeta. split; [apply (scenario_regular_file "short.bin" 420); by vm_compute |].
  split; [reflexivity |]. split; [reflexivity |]. split; by vm_compute.
Qed.


(** [data.xz] extracted to [./out]: the file is [out/data.xz]. *)
Lemma single_file_output_witness :
  Filepath.Join ["./out"; Filepath.Base "data.xz"] = "out/data.xz" /\
  exists tool w1 m0,
    In ("xz", tool) [("gz", "gunzip"); ("bz2", "bunzip2");
                     ("xz", "unxz"); ("zst", "unzstd")] /\
    Os.Create "out/data.xz" Scenario.world = (w1, inl (false, ["out"; "data.xz"])) /\
    Os.stat w1 (false, ["out"; "data.xz"]) = Some (Os.Regular m0 []) /\
    (forall m d,
       Exec.after (exec_Run (Libraries := Scenario.libraries) tool
                     ["-k"; "-c"; "data.xz"] (Os.tree w1))
         !! (false, ["out"; "data.xz"]) = Some (Os.Regular m d) ->
       exists w',
         Unarch.extractSingleFile (L := Scenario.libraries)
           "data.xz" "./out" "xz" Scenario.world =
           (w', Exec.status (exec_Run (Libraries := Scenario.libraries) tool
                               ["-k"; "-c"; "data.xz"] (Os.tree w1))) /\
         Os.stat w' (false, ["out"; "data.xz"]) =
           Some (Os.Regular m
                   (Exec.Stdout (exec_Run (Libraries := Scenario.libraries) tool
                                   ["-k"; "-c"; "data.xz"] (Os.tree w1)))) /\
         Os.spawned w' =
           Os.spawned Scenario.world ++ [(tool, ["-k"; "-c"; "data.xz"])]) /\
    (Filepath.Base "data.xz" <> "." -> Filepath.Base "data.xz" <> ".." ->
     Filepath.Base "data.xz" <> "/" ->
     (false, ["out"; "data.xz"]) =
     (Filepath.is_rooted "./out",
      Filepath.clean_elems "./out" ++ [Filepath.Base "data.xz"])).
Proof.
  split; [reflexivity |].
  apply (single_file_output (L := Scenario.libraries)
           "data.xz" "./out" "xz" Scenario.world (false, ["out"; "data.xz"])).
  - cbn. tauto.
  - by vm_compute.
  - apply is_dirb_false. by vm_compute.
  - apply is_dirb_true. by vm_compute.
Defined.

(** The same new file [out/f.txt] from a tar entry and from a zip entry
    of mode 0o600, under the umask 0o022: 0o644 and 0o600. *)
Lemma tar_mode_not_applied_witness :
  (exists w',
     Unarch.untar_entry "out" (Tar.mkHeader "f.txt" Tar.TypeReg 384)
       (Scenario.payload, None) Scenario.world = (w', None) /\
     Os.stat w' (false, ["out"; "f.txt"]) = Some (Os.Regular 420 Scenario.payload)) /\
  (exists w',
     Unarch.unzip_file "out" (Zip.mkFile "f.txt" 384 (inl (Scenario.payload, None)))
       Scenario.world = (w', None) /\
     Os.stat w' (false, ["out"; "f.txt"]) = Some (Os.Regular 384 Scenario.payload)).
Proof.
  destruct (tar_mode_not_applied "out" "f.txt" (Scenario.payload, None)
              Scenario.world) as (_ & H).
  destruct (H (false, ["out"; "f.txt"])) as (H1 & H2).
  - by vm_compute.
  - apply scenario_well_formed.
  - apply clear_aboveb_true. by vm_compute.
  - by vm_compute.
  - split; [exact (H1 384%Z) | exact (H2 384%Z eq_refl)].
Defined.

(** ** Whole runs in the small world *)

(** A file with the gzip signature goes through the streaming-tar
    strategy; the entries are under [out], but for the one that names its
    way out. *)
Example run_on_gzip_signature :
  let r := Unarch.main (L := Scenario.libraries) ["unarch"; "x.gz"; "out"] Scenario.world in
  r.2 = 0%Z /\ Os.terminal r.1 = [Os.Line "extraction complete."] /\
  Os.stat r.1 (false, ["out"; "d"]) = Some (Os.Directory 493) /\
  Os.stat r.1 (false, ["out"; "d"; "f"]) = Some (Os.Regular 420 Scenario.payload) /\
  Os.stat r.1 (false, ["out"; "d"; "l"]) = None /\
  Os.stat r.1 (false, ["evil.txt"]) = Some (Os.Regular 420 Scenario.payload).
Proof. by vm_compute. Qed.

(** The same archive as a zip: the files have the modes of their entries. *)
Example run_on_zip_signature :
  let r := Unarch.main (L := Scenario.libraries) ["unarch"; "a.zip"; "out"] Scenario.world in
  r.2 = 0%Z /\
  Os.stat r.1 (false, ["out"; "d"]) = Some (Os.Directory 493) /\
  Os.stat r.1 (false, ["out"; "d"; "f"]) = Some (Os.Regular 384 Scenario.payload).
Proof. by vm_compute. Qed.

(** [data.xz] has no signature: it is an [xz] by its name, and [unxz]
    writes to [out/data.xz]. *)
Example run_on_xz_extension :
  let r := Unarch.main (L := Scenario.libraries) ["unarch"; "data.xz"; "./out"] Scenario.world in
  r.2 = 0%Z /\ Os.spawned r.1 = [("unxz", ["-k"; "-c"; "data.xz"])] /\
  Os.stat r.1 (false, ["out"; "data.xz"]) = Some (Os.Regular 420 Scenario.payload) /\
  Os.stat r.1 (false, ["data.xz"]) = Some (Os.Regular 420 [x68; x69]).
Proof. by vm_compute. Qed.

(** Extracted beside itself, the source is the output file: it is emptied
    before the tool runs. *)
Example source_emptied_in_place :
  Filepath.Join ["."; Filepath.Base "data.xz"] = "data.xz" /\
  Os.stat (Os.Create (Filepath.Join ["."; Filepath.Base "data.xz"]) Scenario.world).1
          (false, ["data.xz"]) = Some (Os.Regular 420 []).
Proof. by vm_compute. Qed.

(** * More of the program *)

(** ** The buffer, shorter and longer *)

Section Buffers.

Lemma fill_S (n : nat) (data : list byte) :
  Bytes.fill (S n) data = hd x00 data :: Bytes.fill n (tl data).
Proof.
  unfold Bytes.fill, Bytes.make. destruct data as [| b data].
  - cbn [hd tl length]. rewrite !take_nil, !Nat.sub_0_r. reflexivity.
  - reflexivity.
Qed.

(** A signature that fits in both buffers is seen in both or in none. *)
Lemma HasPrefix_fill (n m : nat) (sig data : list byte) :
  (length sig <= n)%nat -> (length sig <= m)%nat ->
  Bytes.HasPrefix (Bytes.fill n data) sig = Bytes.HasPrefix (Bytes.fill m data) sig.
Proof.
  revert n m data. induction sig as [| s sig IH]; intros n m data Hn Hm; [done |].
  destruct n as [| n]; [cbn in Hn; lia |]. destruct m as [| m]; [cbn in Hm; lia |].
  rewrite !fill_S. cbn [Bytes.HasPrefix]. f_equal. apply IH; cbn in *; lia.
Qed.

(** A signature at the start of the file is at the start of the buffer. *)
Lemma HasPrefix_data_fill (n : nat) (sig data : list byte) :
  (length sig <= n)%nat -> Bytes.HasPrefix data sig = true ->
  Bytes.HasPrefix (Bytes.fill n data) sig = true.
Proof.
  revert n data. induction sig as [| s sig IH]; intros n data Hn Hpre; [done |].
  destruct n as [| n]; [cbn in Hn; lia |].
  destruct data as [| b data]; [done |]. rewrite fill_S. cbn in *.
  apply andb_true_iff in Hpre as [-> Hpre]. apply IH; [lia | done].
Qed.

End Buffers.

(** ** Detection and dispatch together *)

(** Every branch of the two switches of detection, one goal each. *)
Ltac walk_switches :=
  repeat match goal with
    | |- context [if Bytes.HasPrefix ?b ?s then _ else _] =>
        destruct (Bytes.HasPrefix b s) eqn:?
    | |- context [if String.eqb ?a ?b then _ else _] =>
        destruct (String.eqb_spec a b)
    end.

Section DetectAndDispatch.

Import Os Unarch.

Context {L : Libraries}.

Lemma detect_switch_handled (buf : list byte) (name tag : string) :
  detect_switch buf name = inl tag -> In tag Laws.handled_tags.
Proof.
  unfold detect_switch, detect_magic, detect_ext.
  repeat (match goal with |- context [if ?c then _ else _] => destruct c end);
    intros [= <-]; cbn; tauto.
Qed.

Lemma handled_tag_dispatched (tag src dest : string) (w : World) :
  In tag Laws.handled_tags -> extract tag src dest w <> None.
Proof.
  cbn. intros H.
  repeat (destruct H as [<- | H]; [done |]). destruct H.
Qed.

Lemma last_Println (s : string) (w : World) :
  last (terminal (Println s w)) = Some (Line s).
Proof. cbn. apply last_snoc. Qed.

(** What [main] returns, case by case. *)
Lemma main_cases (args : list string) (w : World) :
  (exists s, main args w = (Println s w, 1%Z) /\
             (s = "usage: unarch <archive_file> [destination]." \/
              exists err, s = "error detecting archive type: " +:+ Error err)) \/
  (exists prog path rest tag w' r,
     args = prog :: path :: rest /\
     detectArchiveType w path = inl tag /\
     extract tag path (match rest with d :: _ => d | [] => "." end) w = Some (w', r) /\
     main args w =
       match r with
       | Some err => (Println ("extraction error: " +:+ Error err) w', 1%Z)
       | None => (Println "extraction complete." w', 0%Z)
       end).
Proof.
  destruct args as [| prog [| path rest]]; [left; eauto.. |].
  cbn [main]. destruct (detectArchiveType w path) as [tag | err] eqn:Hd;
    [| left; eauto].
  pose proof Hd as [buf Hbuf]%detect_inl. apply detect_switch_handled in Hbuf.
  destruct (extract tag path _ w) as [[w' r] |] eqn:He.
  - right. exists prog, path, rest, tag, w', r. by destruct r.
  - by apply handled_tag_dispatched in He.
Qed.

(** X1. Every tag that detection returns has a case in the [switch] of
    [main]: the [default] of that switch is never taken, and
    "unsupported archive type." is never the line [main] ends on. *)
Theorem detected_tags_are_dispatched (w : World) (name : string) :
  (forall tag, detectArchiveType w name = inl tag ->
     In tag Laws.handled_tags /\
     forall src dest w', extract tag src dest w' <> None) /\
  (forall args,
     last (terminal (main args w).1) <> Some (Line "unsupported archive type.")).
Proof.
  split.
  - intros tag [buf Hbuf]%detect_inl. apply detect_switch_handled in Hbuf.
    split; [done |]. intros src dest w'. by apply handled_tag_dispatched.
  - intros args.
    destruct (main_cases args w) as [(s & -> & Hs) | Hrun].
    + cbn [fst]. rewrite last_Println. destruct Hs as [-> | [err ->]]; [done |].
      rewrite append_cons. by intros [= ?].
    + destruct Hrun as (prog & path & rest & tag & w' & r & _ & _ & _ & ->).
      destruct r as [err |]; cbn [fst]; rewrite last_Println; [| done].
      rewrite append_cons. by intros [= ?].
Qed.

(** X2. The exit status is 0 or 1, and it is 0 exactly when detection
    gave a tag and the strategy of that tag returned no error; [main] then
    ends on the line "extraction complete.". *)
Theorem exit_status_zero_iff (args : list string) (w : World) :
  ((main args w).2 = 0%Z \/ (main args w).2 = 1%Z) /\
  ((main args w).2 = 0%Z <->
   exists prog path rest tag w',
     args = prog :: path :: rest /\
     detectArchiveType w path = inl tag /\
     extract tag path (match rest with d :: _ => d | [] => "." end) w
       = Some (w', None)) /\
  ((main args w).2 = 0%Z ->
   last (terminal (main args w).1) = Some (Line "extraction complete.")).
Proof.
  destruct (main_cases args w) as [(s & Hm & _) | Hrun].
  - rewrite Hm. cbn [snd]. split; [by right |]. split; [| done].
    split; [done |]. intros (prog & path & rest & tag & w' & -> & Hd & He).
    cbn [main] in Hm. rewrite Hd, He in Hm. by injection Hm.
  - destruct Hrun as (prog & path & rest & tag & w' & r & -> & Hd & He & Hm).
    rewrite Hm. destruct r as [err |]; cbn [fst snd].
    + split; [by right |]. split; [| done]. split; [done |].
      intros (prog' & path' & rest' & tag' & w'' & [= <- <- <-] & Hd' & He').
      rewrite Hd in Hd'. injection Hd' as <-. rewrite He in He'. by injection He'.
    + split; [by left |]. split; [| intros _; apply last_Println].
      split; [| done]. intros _. by exists prog, path, rest, tag, w'.
Qed.

(** X3. When the archive path is not a regular file (it is missing, or
    it is a directory), [main] prints the path error of the open or of
    the read and exits with status 1: no strategy runs, the file tree is
    as it was and no command was started. *)
Theorem only_regular_files_are_extracted (prog path : string)
    (rest : list string) (w : World) :
  (forall data, ~ Spec.regular_file w path data) ->
  exists op e,
    main (prog :: path :: rest) w =
      (Println ("error detecting archive type: " +:+ Error (PathError op path e)) w,
       1%Z).
Proof.
  intros Hnot. cbn [main].
  destruct (detect_not_regular w path _ eq_refl) as [[data Hd] | (op & e & He)].
  - by destruct (Hnot data).
  - rewrite He. by exists op, e.
Qed.

(** X4. The tags [gz], [bz2], [xz] and [zst] are given by the extension
    alone, to files that do not start with the signature of the format:
    a file that does start with it is a [tar.gz], [tar.bz2], [tar.xz] or
    [tar.zst], so the single-file tools are only ever run on files
    without the signature of their format. *)
Theorem single_file_never_has_its_signature (w : World) (src tag : string)
    (sig : list byte) :
  In (tag, sig) Laws.single_file_magic ->
  detectArchiveType w src = inl tag ->
  Filepath.Ext src = "." +:+ tag /\
  exists data, Spec.regular_file w src data /\ Bytes.HasPrefix data sig = false.
Proof.
  intros Hin Hdet.
  destruct (detect_not_regular w src _ Hdet) as [[data Hd] | (op & e & He)];
    [| done].
  rewrite (detect_regular_file _ _ _ Hd) in Hdet.
  assert (Bytes.HasPrefix (Bytes.fill 16 data) sig = false /\
          Filepath.Ext src = "." +:+ tag) as [Hbuf Hext].
  { revert Hdet. unfold detect_switch, detect_magic, detect_ext. cbn in Hin.
    destruct Hin as [H | [H | [H | [H | []]]]]; injection H as <- <-;
      walk_switches; intros Hdet; try discriminate Hdet; by split. }
  split; [done |]. exists data. split; [done |].
  destruct (Bytes.HasPrefix data sig) eqn:Hpre; [| done].
  apply (HasPrefix_data_fill 16) in Hpre; [congruence |].
  cbn in Hin. repeat (destruct Hin as [[= <- <-] | Hin]; [cbn; lia |]). destruct Hin.
Qed.

(** X5. Detection looks at the first 16 bytes of the file and at the
    extension of its name, and at nothing else: two regular files that
    agree on both are classified alike, in any two worlds. *)
Theorem detect_reads_sixteen_bytes (w1 w2 : World) (name1 name2 : string)
    (data1 data2 : list byte) :
  Spec.regular_file w1 name1 data1 -> Spec.regular_file w2 name2 data2 ->
  take 16 data1 = take 16 data2 ->
  Filepath.Ext name1 = Filepath.Ext name2 ->
  detectArchiveType w1 name1 = detectArchiveType w2 name2.
Proof.
  intros H1 H2 Hdata Hext.
  rewrite (detect_regular_file _ _ _ H1), (detect_regular_file _ _ _ H2).
  rewrite <- (fill_take 16 data1), <- (fill_take 16 data2), Hdata.
  unfold detect_switch. by rewrite Hext.
Qed.

(** X6. The second look at the file, in [untar], never disagrees with
    the first: for a file that detection gave a tag of the tar family,
    the filter that [untar] picks from the first 6 bytes is the one the
    tag names, and none for the tag [tar]. *)
Theorem tag_names_the_filter (w : World) (src dest tag : string) (flt : filter)
    (data : list byte) :
  In (tag, flt) Laws.tar_tag_filter ->
  detectArchiveType w src = inl tag ->
  Spec.regular_file w src data ->
  untar_filter (Bytes.fill 6 data) = flt /\
  extract tag src dest w =
    Some match NewReader flt data with
         | Some err => (w, Some err)
         | None => untar_loop dest (tar_NewReader flt data) w
         end.
Proof.
  intros Hin Hdet Hfile.
  assert (untar_filter (Bytes.fill 6 data) = flt) as Hflt.
  { rewrite (detect_regular_file _ _ _ Hfile) in Hdet.
    unfold untar_filter.
    rewrite !(HasPrefix_fill 6 16) by (cbn; lia).
    revert Hdet. unfold detect_switch, detect_magic, detect_ext. cbn in Hin.
    destruct Hin as [H | [H | [H | [H | [H | []]]]]]; injection H as <- <-;
      walk_switches; intros Hdet; try discriminate Hdet; reflexivity. }
  split; [done |].
  assert (extract tag src dest w = Some (untar src dest w)) as ->.
  { cbn in Hin. repeat (destruct Hin as [[= <- <-] | Hin]; [reflexivity |]).
    destruct Hin. }
  by rewrite (untar_regular_file _ _ _ _ Hfile), Hflt.
Qed.

End DetectAndDispatch.

(** ** What the container strategies leave alone *)

Section Kept.

Import Os Unarch.

Context {L : Libraries}.

Implicit Types (w : World) (k : rpath).

Lemma keeps_refl w : Laws.keeps w w.
Proof. repeat split; eauto. Qed.

Lemma keeps_trans w1 w2 w3 : Laws.keeps w1 w2 -> Laws.keeps w2 w3 -> Laws.keeps w1 w3.
Proof.
  intros (Hu & Hs & Ht & Hd & Hr) (Hu' & Hs' & Ht' & Hd' & Hr').
  repeat split; [congruence.. | auto |].
  intros k m d Hk. destruct (Hr _ _ _ Hk) as [d' Hk']. eauto.
Qed.

Lemma insert_keeps w k (n : node) :
  (forall m, stat w k <> Some (Directory m)) ->
  (forall m d, stat w k = Some (Regular m d) -> exists d', n = Regular m d') ->
  Laws.keeps w (with_tree w (<[k := n]> (tree w))).
Proof.
  intros Hnd Hreg. repeat split; [done.. | |].
  - intros k' m Hk'. destruct (decide (k = k')) as [<- | Hne].
    + by destruct (Hnd m).
    + by rewrite stat_insert_ne.
  - intros k' m d Hk'. destruct (decide (k = k')) as [<- | Hne].
    + destruct (Hreg _ _ Hk') as [d' ->]. exists d'. apply stat_insert_eq.
      intros E. unfold stat in Hk'. by rewrite E in Hk'.
    + exists d. by rewrite stat_insert_ne.
Qed.

Lemma MkdirAll_keeps (name : string) (perm : Z) w :
  Laws.keeps w (MkdirAll name perm w).1.
Proof.
  destruct (resolve name) as [k |] eqn:Hk.
  - destruct (MkdirAll name perm w) as [w' e] eqn:Hmk.
    destruct (MkdirAll_spec _ _ _ _ _ _ Hk Hmk) as (Hst & Hu & Hs & Ht & _).
    repeat split; [done.. | |]; cbn [fst].
    + intros k' m Hk'. destruct (Hst k') as [H | (H & _)]; congruence.
    + intros k' m d Hk'. exists d. destruct (Hst k') as [H | (H & _)]; congruence.
  - unfold MkdirAll. rewrite Hk. apply keeps_refl.
Qed.

Lemma OpenFile_keeps (name : string) (perm : Z) w :
  Laws.keeps w (OpenFile name perm w).1.
Proof.
  destruct (OpenFile name perm w) as [w' r] eqn:Hopen. cbn [fst].
  apply OpenFile_inv in Hopen. destruct r as [k | e]; [| subst; apply keeps_refl].
  destruct Hopen as (_ & Hnot & m & -> & Hm). apply insert_keeps.
  - intros m' Hm'. apply Hnot. by exists m'.
  - intros m' d Hst. rewrite Hst in Hm. subst. eauto.
Qed.

Lemma write_keeps k (data : list byte) w : Laws.keeps w (write k data w).
Proof.
  unfold write. destruct (tree w !! k) as [[m | m d] |] eqn:Hk;
    try apply keeps_refl.
  destruct (decide (k.2 = [])) as [E | Hne].
  - assert (forall k', stat (with_tree w (<[k := Regular m data]> (tree w))) k'
                        = stat w k') as Hsame.
    { intros k'. destruct (decide (k = k')) as [<- | Hne];
        [unfold stat; by rewrite E | by rewrite stat_insert_ne]. }
    repeat split; [done.. | |].
    + intros k' m'. by rewrite Hsame.
    + intros k' m' d'. rewrite Hsame. eauto.
  - apply insert_keeps.
    + intros m'. unfold stat. destruct k.2 eqn:E; [done | congruence].
    + intros m' d'. unfold stat. destruct k.2 eqn:E; [done |].
      rewrite Hk. intros [= <- <-]. eauto.
Qed.

Lemma untar_entry_keeps (dest : string) (h : Tar.Header)
    (body : list byte * option error) w :
  Laws.keeps w (untar_entry dest h body w).1.
Proof.
  unfold untar_entry.
  destruct (Bytes.byte_eqb (Tar.Typeflag h) Tar.TypeDir); [apply MkdirAll_keeps |].
  destruct (Bytes.byte_eqb (Tar.Typeflag h) Tar.TypeReg); [| apply keeps_refl].
  eapply keeps_trans; [apply MkdirAll_keeps |]. unfold Create.
  pose proof (OpenFile_keeps (Filepath.Join [dest; Tar.Name h]) 438
                (MkdirAll (Filepath.Dir (Filepath.Join [dest; Tar.Name h])) ModePerm w).1)
    as Hopen.
  destruct (OpenFile _ _ _) as [w2 [k | e]]; cbn [fst] in *; [| done].
  eapply keeps_trans; [done |]. apply write_keeps.
Qed.

Lemma untar_loop_keeps (dest : string) (s : Tar.Stream) w :
  Laws.keeps w (untar_loop dest s w).1.
Proof.
  revert w. induction s as [| err | h body rest IH]; intros w;
    [apply keeps_refl.. |].
  cbn [untar_loop]. pose proof (untar_entry_keeps dest h body w) as Hstep.
  destruct (untar_entry dest h body w) as [w1 [e |]]; [done |].
  eapply keeps_trans; [done | apply IH].
Qed.

Lemma unzip_file_keeps (dest : string) (f : Zip.File) w :
  Laws.keeps w (unzip_file dest f w).1.
Proof.
  unfold unzip_file. destruct (IsDir (Zip.Mode f)); [apply MkdirAll_keeps |].
  eapply keeps_trans; [apply MkdirAll_keeps |].
  pose proof (OpenFile_keeps (Filepath.Join [dest; Zip.Name f]) (Zip.Mode f)
                (MkdirAll (Filepath.Dir (Filepath.Join [dest; Zip.Name f])) ModePerm w).1)
    as Hopen.
  destruct (OpenFile _ _ _) as [w2 [k | e]]; cbn [fst] in *; [| done].
  destruct (Zip.Open f) as [rc | e]; [| done].
  eapply keeps_trans; [done |]. apply write_keeps.
Qed.

Lemma unzip_loop_keeps (dest : string) (files : list Zip.File) w :
  Laws.keeps w (unzip_loop dest files w).1.
Proof.
  revert w. induction files as [| f files IH]; intros w; [apply keeps_refl |].
  cbn [unzip_loop]. pose proof (unzip_file_keeps dest f w) as Hstep.
  destruct (unzip_file dest f w) as [w1 [e |]]; [done |].
  eapply keeps_trans; [done | apply IH].
Qed.

(** X7. Whatever the archive holds, [untar] and [unzip] start no
    command and print nothing, remove no file and no directory, never put
    a file where a directory is or a directory where a file is, and leave
    the mode of every file and directory that was there as it was. *)
Theorem containers_keep_what_is_there (src dest : string) w :
  Laws.keeps w (untar src dest w).1 /\ Laws.keeps w (unzip src dest w).1.
Proof.
  split.
  - unfold untar. destruct (Open w src) as [f | e]; [| apply keeps_refl].
    destruct (Read f 6) as [[buf n] e].
    destruct (contents f) as [data | e']; [| apply keeps_refl].
    destruct (NewReader _ data); [apply keeps_refl | apply untar_loop_keeps].
  - unfold unzip. destruct (Open w src) as [f | e]; [| apply keeps_refl].
    destruct (contents f) as [data | e']; [| apply keeps_refl].
    destruct (zip_OpenReader data); [apply unzip_loop_keeps | apply keeps_refl].
Qed.

Lemma MkdirAll_adds (name : string) (perm : Z) w k :
  stat (MkdirAll name perm w).1 k = stat w k \/
  (stat w k = None /\ is_dir (MkdirAll name perm w).1 k).
Proof.
  destruct (resolve name) as [k0 |] eqn:Hk.
  - destruct (MkdirAll name perm w) as [w' e] eqn:Hmk.
    destruct (MkdirAll_spec _ _ _ _ _ _ Hk Hmk) as (Hst & _). cbn [fst].
    destruct (Hst k) as [H | (H1 & H2 & _)]; [by left | right].
    split; [done | by eexists].
  - unfold MkdirAll. rewrite Hk. by left.
Qed.

(** X8. A tar stream without a regular entry (directories, links,
    devices) only makes directories: the run ends the way the stream
    ends, with no error when the stream ends well, and every path is as it
    was or was free and is now a directory; no file is made or touched.
    The empty stream leaves the world as it is. *)
Theorem directories_only_archive (dest : string) (s : Tar.Stream) w :
  Laws.no_regular s = true ->
  (untar_loop dest s w).2 = Laws.ending s /\
  (forall k, stat (untar_loop dest s w).1 k = stat w k \/
             (stat w k = None /\ is_dir (untar_loop dest s w).1 k)) /\
  (s = Tar.AtEOF -> untar_loop dest s w = (w, None)).
Proof.
  intros Hs. split; [| split; [| by intros ->]].
  - revert w. induction s as [| err | h body rest IH]; intros w; [done.. |].
    cbn in Hs. apply andb_true_iff in Hs as [Hh Hrest]. apply negb_true_iff in Hh.
    cbn [untar_loop Laws.ending]. unfold untar_entry. rewrite Hh.
    destruct (Bytes.byte_eqb (Tar.Typeflag h) Tar.TypeDir); by apply IH.
  - revert w. induction s as [| err | h body rest IH]; intros w k; [by left.. |].
    cbn in Hs. apply andb_true_iff in Hs as [Hh Hrest]. apply negb_true_iff in Hh.
    cbn [untar_loop]. unfold untar_entry. rewrite Hh.
    destruct (Bytes.byte_eqb (Tar.Typeflag h) Tar.TypeDir); [| by apply IH].
    pose proof (MkdirAll_adds (Filepath.Join [dest; Tar.Name h]) ModePerm w k) as Hmk.
    pose proof (IH Hrest (MkdirAll (Filepath.Join [dest; Tar.Name h]) ModePerm w).1 k)
      as Hloop.
    destruct Hloop as [H | [H1 H2]]; destruct Hmk as [H' | [H1' [m H2']]].
    + left. congruence.
    + right. split; [done |]. exists m. congruence.
    + right. split; [congruence | done].
    + congruence.
Qed.

(** X9. The loop of [unzip] over two lists of files, one after the other,
    is the loop over the first and then, if that ended without error, the
    loop over the second from the world reached: at the first error the
    files extracted so far stay and the later ones are not looked at. *)
Theorem unzip_stops_at_first_error (dest : string) (fs1 fs2 : list Zip.File) w :
  unzip_loop dest (fs1 ++ fs2) w =
    match unzip_loop dest fs1 w with
    | (w1, Some err) => (w1, Some err)
    | (w1, None) => unzip_loop dest fs2 w1
    end.
Proof.
  revert w. induction fs1 as [| f fs1 IH]; intros w; [done |].
  cbn [app unzip_loop]. destruct (unzip_file dest f w) as [w1 [e |]]; [done |].
  apply IH.
Qed.

End Kept.

(** ** Files written twice, and files not written *)

Section Again.

Import Os Unarch.

Context {L : Libraries}.

Implicit Types (w : World) (k : rpath).

Lemma with_tree_same w : with_tree w (tree w) = w.
Proof. by destruct w. Qed.

Lemma MkdirAll_directory (name : string) (perm : Z) w k :
  resolve name = Some k -> is_dir w k -> MkdirAll name perm w = (w, None).
Proof.
  intros Hk [m Hm]. unfold MkdirAll. rewrite Hk.
  assert (stat w (k.1, rev (rev k.2)) = Some (Directory m)) as Hst
    by (rewrite rev_involutive; by destruct k).
  destruct (rev k.2); cbn [mkdir_all]; by rewrite Hst.
Qed.

(** The file that is there with the bytes of the entry, put once more. *)
Lemma put_again (dest name : string) (perm : Z)
    (src : list byte * option error) w k (m : Z) :
  let target := Filepath.Join [dest; name] in
  resolve target = Some k -> well_formed w ->
  stat w k = Some (Regular m src.1) ->
  MkdirAll (Filepath.Dir target) ModePerm w = (w, None) /\
  OpenFile target perm w = (with_tree w (<[k := Regular m []]> (tree w)), inl k) /\
  Copy k src (with_tree w (<[k := Regular m []]> (tree w))) = (w, src.2).
Proof.
  intros target Hk Hwf Hst.
  assert (k.2 <> []) as Hne.
  { intros E. unfold stat in Hst. by rewrite E in Hst. }
  pose proof (stat_Some_tree _ _ _ Hne Hst) as Htree.
  split; [| split].
  - apply (MkdirAll_directory _ _ _ (parent k)); [by apply resolve_Dir_Join |].
    by eapply Hwf.
  - unfold OpenFile. fold target. by rewrite Hk, Hst.
  - unfold Copy. rewrite write_opened, insert_id by done.
    by rewrite with_tree_same.
Qed.

(** X10. A regular entry of a tar stream extracted a second time leaves
    the world exactly as the first time left it, and returns what it
    returned: the file is emptied and written again with the same bytes,
    under the mode it had. *)
Theorem regular_entry_again (dest : string) (h : Tar.Header)
    (body : list byte * option error) w k :
  Tar.Typeflag h = Tar.TypeReg ->
  resolve (Filepath.Join [dest; Tar.Name h]) = Some k ->
  well_formed w -> clear_above w k -> ~ is_dir w k ->
  exists w',
    untar_entry dest h body w = (w', body.2) /\
    untar_entry dest h body w' = (w', body.2).
Proof.
  intros Hreg Hk Hwf Hclear Hnot.
  destruct (untar_entry_written dest h body w k Hreg Hk Hwf Hclear Hnot)
    as (w' & m & H1 & Hwf' & _ & Hst' & _).
  exists w'. split; [done |].
  destruct (put_again dest (Tar.Name h) 438 body w' k m Hk Hwf' Hst')
    as (Hmk & Hopen & Hcopy).
  rewrite untar_entry_reg by done. cbn zeta. unfold Create.
  rewrite Hmk. cbn [fst]. by rewrite Hopen, Hcopy.
Qed.

(** X11. A file of a zip archive whose content cannot be opened: the
    output file has been created, or emptied if it was there, before the
    content is asked for, so the error of [f.Open()] comes back with an
    empty file left in the destination. *)
Theorem unopened_zip_entry_leaves_empty_file (dest : string) (f : Zip.File)
    (err : error) w k :
  IsDir (Zip.Mode f) = false -> Zip.Open f = inr err ->
  resolve (Filepath.Join [dest; Zip.Name f]) = Some k ->
  well_formed w -> clear_above w k -> ~ is_dir w k ->
  exists w' m,
    unzip_file dest f w = (w', Some err) /\
    stat w' k = Some (Regular m []) /\
    (forall m0 d, stat w k = Some (Regular m0 d) -> m = m0).
Proof.
  intros Hfile Herr Hk Hwf Hclear Hnot.
  pose proof (not_dir_not_anchor _ _ Hnot) as Hne.
  destruct (put_file dest (Zip.Name f) (Zip.Mode f) ([], None) w k Hk Hwf Hclear Hnot)
    as (w1 & m & Hmk & Hopen & _ & _ & _ & _ & _ & _ & Hold).
  exists (with_tree w1 (<[k := Regular m []]> (tree w1))), m.
  unfold unzip_file. rewrite Hfile, Hmk. cbn [fst]. rewrite Hopen, Herr.
  split; [done |]. split; [by apply stat_insert_eq | done].
Qed.

(** X12. The single-file strategy does not make the destination
    directory: when the directory of the output file is missing, the
    error of [os.Create] comes back, the world is as it was and no tool
    has been started.  The error is "no such file or directory" when no
    regular file lies above the output file, and "not a directory" when,
    in a well-formed tree, a regular file does. *)
Theorem single_file_needs_its_directory (src dest typ : string) w k :
  In typ Spec.single_file_tools ->
  resolve (Filepath.Join [dest; Filepath.Base src]) = Some k ->
  stat w k = None -> stat w (parent k) = None ->
  exists errno,
    extractSingleFile src dest typ w =
      (w, Some (PathError "open" (Filepath.Join [dest; Filepath.Base src]) errno)) /\
    (clear_above w k -> errno = ENOENT) /\
    (well_formed w ->
     forall p m d, p `prefix_of` k.2 -> stat w (k.1, p) = Some (Regular m d) ->
     errno = ENOTDIR).
Proof.
  intros Htyp Hk Hst Hpar.
  destruct (single_file_command_supported typ src Htyp) as (tool & Hcmd & _).
  assert (k.2 <> []) as Hne by (by apply stat_None in Hst as [? _]).
  exists (missing_errno w (parent k)). split; [| split].
  - unfold extractSingleFile, Create, OpenFile. by rewrite Hcmd, Hk, Hst, Hpar.
  - intros Hclear. apply missing_errno_clear. cbn. intros p m d Hp.
    apply prefix_removelast in Hp as [Hp Hlast]. apply Hclear; auto.
  - intros Hwf p m d Hp Hreg.
    apply (missing_errno_regular w (parent k) p m d); [done | | done].
    cbn. destruct k as [r l]. cbn in *.
    destruct l as [| x l _] using rev_ind; [done |].
    rewrite removelast_last. destruct Hp as [q Hq].
    destruct q as [| y q _] using rev_ind.
    + rewrite app_nil_r in Hq. subst p. congruence.
    + rewrite app_assoc in Hq. apply app_inj_tail in Hq as [-> _]. by exists q.
Qed.

End Again.

(** ** From the signature to the end of [main] *)

Section Through.

Import Os Unarch.

Context {L : Libraries}.

Lemma HasPrefix_split (s p : list byte) :
  Bytes.HasPrefix s p = true -> exists r, s = p ++ r.
Proof.
  revert s. induction p as [| b p IH]; intros s; [by exists s |].
  destruct s as [| c s]; [done |]. cbn.
  intros [Hb [r ->]%IH]%andb_true_iff. apply Byte.byte_dec_bl in Hb as ->. eauto.
Qed.

Lemma detect_signature (w : World) (name : string) (sig data : list byte)
    (tag : string) :
  In (sig, tag) Spec.signatures -> Spec.regular_file w name data ->
  Bytes.HasPrefix data sig = true ->
  detectArchiveType w name = inl tag.
Proof.
  intros Hin Hfile [rest ->]%HasPrefix_split.
  rewrite (detect_regular_file _ _ _ Hfile).
  unfold detect_switch, detect_magic, Bytes.fill. cbn in Hin.
  repeat (destruct Hin as [[= <- <-] | Hin]; [reflexivity |]). destruct Hin.
Qed.

Lemma untar_filter_signature (sig data : list byte) (flt : filter) :
  In (sig, flt) Spec.filters -> Bytes.HasPrefix data sig = true ->
  untar_filter (Bytes.fill 6 data) = flt.
Proof.
  intros Hin [rest ->]%HasPrefix_split. unfold untar_filter, Bytes.fill.
  cbn in Hin.
  repeat (destruct Hin as [[= <- <-] | Hin]; [reflexivity |]). destruct Hin.
Qed.

(** X13. A file that starts with the gzip signature and whose gzip
    header the library refuses: [main] prints the error of
    [gzip.NewReader] as an extraction error and exits with status 1,
    with nothing written and nothing started. *)
Theorem refused_gzip_header (prog src dest : string) (w : World)
    (data : list byte) (err : error) :
  Spec.regular_file w src data ->
  Bytes.HasPrefix data [x1f; x8b] = true ->
  gzip_NewReader data = Some err ->
  main [prog; src; dest] w = (Println ("extraction error: " +:+ Error err) w, 1%Z).
Proof.
  intros Hfile Hpre Herr. cbn [main].
  rewrite (detect_signature w src [x1f; x8b] data "tar.gz") by (cbn; tauto || done).
  change (extract "tar.gz" src dest w) with (Some (untar src dest w)).
  rewrite (untar_regular_file _ _ _ _ Hfile). cbn zeta.
  rewrite (untar_filter_signature [x1f; x8b] data Gzip) by (cbn; tauto || done).
  cbn [NewReader]. by rewrite Herr.
Qed.

(** X14. A file that starts with the rar or the 7z signature, whatever
    its name: [main] runs [7z x <src> -o<dest> -y] once, the output of
    the tool goes to the terminal, the file tree is the one the tool
    leaves, and the exit status is 0 exactly when the tool ends well. *)
Theorem archiver_run (prog src dest : string) (w : World) (data sig : list byte) :
  In sig [[x52; x61; x72; x21]; [x37; x7a; xbc; xaf; x27; x1c]] ->
  Spec.regular_file w src data -> Bytes.HasPrefix data sig = true ->
  let args := ["x"; src; "-o" +:+ dest; "-y"] in
  let p := exec_Run "7z" args (tree w) in
  main [prog; src; dest] w =
    ({| tree := Exec.after p; umask := umask w;
        spawned := spawned w ++ [("7z", args)];
        terminal := terminal w ++
          [Child (Exec.Stdout p);
           Line match Exec.status p with
                | Some err => "extraction error: " +:+ Error err
                | None => "extraction complete."
                end] |},
     match Exec.status p with Some _ => 1%Z | None => 0%Z end).
Proof.
  intros Hsig Hfile Hpre args p.
  assert (exists tag, In tag ["rar"; "7z"] /\ detectArchiveType w src = inl tag)
    as (tag & Htag & Hdet).
  { cbn in Hsig. destruct Hsig as [<- | [<- | []]].
    - exists "rar". split; [cbn; tauto |].
      apply (detect_signature w src [x52; x61; x72; x21] data); [cbn; tauto | done..].
    - exists "7z". split; [cbn; tauto |].
      apply (detect_signature w src [x37; x7a; xbc; xaf; x27; x1c] data);
        [cbn; tauto | done..]. }
  cbn [main]. rewrite Hdet.
  assert (extract tag src dest w = Some (extractWith7z src dest w)) as ->.
  { cbn in Htag. by destruct Htag as [<- | [<- | []]]. }
  unfold extractWith7z, Run. fold args. fold p.
  destruct (Exec.status p) as [err |]; unfold Println; cbn;
    by rewrite <- app_assoc.
Qed.

(** X15. A file that starts with [PK]: when the zip reader refuses it,
    [main] prints that error, exits with status 1 and has written
    nothing; when the archive holds no file, [main] ends well and the
    file tree is as it was. *)
Theorem zip_reader_outcomes (prog src dest : string) (w : World) (data : list byte) :
  Spec.regular_file w src data -> Bytes.HasPrefix data [x50; x4b] = true ->
  (forall err, zip_OpenReader data = inr err ->
     main [prog; src; dest] w =
       (Println ("extraction error: " +:+ Error err) w, 1%Z)) /\
  (zip_OpenReader data = inl [] ->
     main [prog; src; dest] w = (Println "extraction complete." w, 0%Z)).
Proof.
  intros Hfile Hpre.
  assert (detectArchiveType w src = inl "zip") as Hdet
    by (apply (detect_signature w src [x50; x4b] data); [cbn; tauto | done..]).
  assert (unzip src dest w =
            match zip_OpenReader data with
            | inr err => (w, Some err)
            | inl files => unzip_loop dest files w
            end) as Hzip.
  { destruct Hfile as (k & m & Hk & Hst). unfold unzip, Open, contents.
    by rewrite Hk, Hst. }
  split; [intros err Herr | intros Hnone]; cbn [main]; rewrite Hdet;
    change (extract "zip" src dest w) with (Some (unzip src dest w));
    rewrite Hzip; [by rewrite Herr | by rewrite Hnone].
Qed.

End Through.

(** ** Names that stay in the destination *)

Section Inside.

Import Os Unarch Filepath.

Context {L : Libraries}.

Implicit Types (w : World) (k root : rpath).



(** Joined to the empty destination, a name is taken as it is: the
    place is the one the name itself gives, the absolute one for a name
    that starts with [/]. *)
Lemma Join_empty_destination (name : string) :
  resolve (Join [""; name]) = resolve name /\
  resolve (Join [""; "/etc/passwd"]) = Some (true, ["etc"; "passwd"]).
Proof.
  split; [| reflexivity]. cbn [Join]. change (String.eqb "" "") with true.
  cbv iota. destruct (String.eqb_spec name "") as [-> | Hn]; [done |].
  cbn [strings_Join]. rewrite resolve_Clean. unfold resolve.
  by destruct (String.eqb_spec name "").
Qed.















End Inside.

(** ** The two listings *)

Section Listings.

Import Os.

Context {L : Libraries}.

(** Both detections fail alike before they look at the bytes, or look at
    the same 16 bytes. *)
Lemma detect_together (w : World) (name : string) :
  (exists op e,
     Earlier.detectArchiveType w name = inr (PathError op name e) /\
     Unarch.detectArchiveType w name = inr (PathError op name e)) \/
  (exists data,
     Spec.regular_file w name data /\
     Earlier.detectArchiveType w name = Earlier.detect_switch (Bytes.fill 16 data) /\
     Unarch.detectArchiveType w name = Unarch.detect_switch (Bytes.fill 16 data) name).
Proof.
  unfold Earlier.detectArchiveType, Unarch.detectArchiveType, Open.
  destruct (resolve name) as [k |] eqn:Hk; [| left; eauto].
  destruct (stat w k) as [[m | m data] |] eqn:Hst; [left | right | left].
  - unfold Read. cbn. eauto.
  - exists data. split; [by exists k, m |].
    unfold Read. cbn [file_node]. by destruct data.
  - eauto.
Qed.

Lemma switches_together (buf : list byte) (name : string) :
  (forall t, Earlier.detect_switch buf = inl t ->
             Unarch.detect_switch buf name = inl t /\
             In t ["zip"; "tar.gz"; "tar.bz2"; "tar.xz"; "rar"; "7z"]) /\
  (forall e, Unarch.detect_switch buf name = inr e ->
             Earlier.detect_switch buf = inr e) /\
  (forall t, Unarch.detect_switch buf name = inl t ->
             Earlier.detect_switch buf = inl t \/
             (Earlier.detect_switch buf = inr Spec.unknown_format /\
              In t ["tar.zst"; "gz"; "bz2"; "xz"; "lz"; "lzma"; "zst"; "tar";
                    "tar.lz"; "tar.lzma"])).
Proof.
  unfold Earlier.detect_switch, Earlier.detect_magic, Unarch.detect_switch,
    Unarch.detect_magic, Unarch.detect_ext.
  split; [| split]; intros t; walk_switches; intros [= <-];
    try (split; [reflexivity | cbn; tauto]); try reflexivity;
    try (left; reflexivity); right; (split; [reflexivity | cbn; tauto]).
Qed.

Lemma earlier_detection_tags (w : World) (name tag : string) :
  Earlier.detectArchiveType w name = inl tag ->
  Unarch.detectArchiveType w name = inl tag /\
  In tag ["zip"; "tar.gz"; "tar.bz2"; "tar.xz"; "rar"; "7z"].
Proof.
  destruct (detect_together w name) as [(op & e & -> & _) | (data & _ & -> & ->)];
    [done |].
  apply switches_together.
Qed.

(** X17. The second listing classifies as the first wherever the first
    classifies: the same tag for the same file; where the second fails the
    first failed with the same error; and what the second classifies anew
    ([tar.zst] and the tags by extension) the first refused as unknown. *)
Theorem earlier_detection_kept (w : World) (name : string) :
  (forall t, Earlier.detectArchiveType w name = inl t ->
             Unarch.detectArchiveType w name = inl t) /\
  (forall e, Unarch.detectArchiveType w name = inr e ->
             Earlier.detectArchiveType w name = inr e) /\
  (forall t, Unarch.detectArchiveType w name = inl t ->
             Earlier.detectArchiveType w name = inl t \/
             (Earlier.detectArchiveType w name = inr Spec.unknown_format /\
              In t ["tar.zst"; "gz"; "bz2"; "xz"; "lz"; "lzma"; "zst"; "tar"])).
Proof.
  destruct (detect_together w name) as [(op & e & -> & ->) | (data & _ & -> & HU)].
  - split; [done |]. split; [done |]. done.
  - destruct (switches_together (Bytes.fill 16 data) name) as (H1 & H2 & H3).
    rewrite HU. split; [intros t Ht; by apply H1 |]. split; [done |].
    intros t Ht. destruct (H3 t Ht) as [H | [H Hin]]; [by left | right].
    split; [done |].
    destruct (detect_switch_tar_lz (Bytes.fill 16 data) name) as [Hlz Hlzma].
    cbn in Hin |- *.
    repeat (destruct Hin as [<- | Hin]; [tauto || contradiction |]). destruct Hin.
Qed.

Lemma earlier_unzip_file (dest : string) (f : Zip.File) (w w' : World) :
  Earlier.unzip_file dest f w = (w', None) ->
  Unarch.unzip_file dest f w = (w', None).
Proof.
  unfold Earlier.unzip_file, Unarch.unzip_file.
  destruct (IsDir (Zip.Mode f)); [done |].
  by destruct (MkdirAll _ ModePerm w) as [w0 [e |]].
Qed.

Lemma earlier_unzip_loop (dest : string) (files : list Zip.File) (w w' : World) :
  Earlier.unzip_loop dest files w = (w', None) ->
  Unarch.unzip_loop dest files w = (w', None).
Proof.
  revert w. induction files as [| f files IH]; intros w; [done |].
  cbn [Earlier.unzip_loop Unarch.unzip_loop].
  destruct (Earlier.unzip_file dest f w) as [w1 [e |]] eqn:Hf; [done |].
  rewrite (earlier_unzip_file _ _ _ _ Hf). apply IH.
Qed.

Lemma earlier_unzip (src dest : string) (w w' : World) :
  Earlier.unzip src dest w = (w', None) -> Unarch.unzip src dest w = (w', None).
Proof.
  unfold Earlier.unzip, Unarch.unzip. destruct (Open w src) as [f | e]; [| done].
  destruct (contents f) as [data | e]; [| done].
  destruct (zip_OpenReader data); [apply earlier_unzip_loop | done].
Qed.

(** A file the first listing classifies does not start with the zstd
    signature: both listings read it through the same filter. *)
Lemma earlier_untar (w : World) (src dest tag : string) :
  Earlier.detectArchiveType w src = inl tag ->
  Earlier.untar src dest w = Unarch.untar src dest w.
Proof.
  intros Hdet.
  destruct (detect_together w src) as [(op & e & He & _) | (data & Hfile & HE & _)];
    [congruence |].
  rewrite HE in Hdet.
  assert (Earlier.untar_filter (Bytes.fill 6 data) =
          Unarch.untar_filter (Bytes.fill 6 data)) as Hflt.
  { unfold Earlier.untar_filter, Unarch.untar_filter.
    rewrite !(HasPrefix_fill 6 16) by (cbn; lia).
    revert Hdet. unfold Earlier.detect_switch, Earlier.detect_magic.
    walk_switches; intros Hdet; try discriminate Hdet; try reflexivity;
      exfalso;
      repeat match goal with
             | H : Bytes.HasPrefix _ (_ :: _) = true |- _ =>
                 apply HasPrefix_head in H as [? ?]
             end; congruence. }
  rewrite (untar_regular_file _ _ _ _ Hfile). cbn zeta. rewrite <- Hflt.
  destruct Hfile as (k & m & Hk & Hst). unfold Earlier.untar, Open.
  rewrite Hk, Hst. unfold Read, contents. cbn [file_node].
  by destruct data.
Qed.

(** X18. Every run of the first listing that ends well ends well in the
    second listing too, with the same file tree and the same commands
    started: the second listing changed no run that worked. *)
Theorem earlier_runs_kept (args : list string) (w w1 : World) :
  Earlier.main args w = (w1, 0%Z) ->
  exists w2,
    Unarch.main args w = (w2, 0%Z) /\
    tree w2 = tree w1 /\ spawned w2 = spawned w1 /\ umask w2 = umask w1.
Proof.
  destruct args as [| prog [| path rest]]; [done.. |].
  cbn [Earlier.main Unarch.main].
  destruct (Earlier.detectArchiveType w path) as [tag | e] eqn:Hdet; [| done].
  destruct (earlier_detection_tags w path tag Hdet) as [HU Htag].
  rewrite HU.
  set (dest := match rest with d :: _ => d | [] => "." end).
  assert (forall w', Earlier.extract tag path dest w = Some (w', None) ->
                     Unarch.extract tag path dest w = Some (w', None)) as Hsame.
  { intros w'. cbn in Htag.
    destruct Htag as [<- | [<- | [<- | [<- | [<- | [<- | []]]]]]].
    - change (Earlier.extract "zip" path dest w)
        with (Some (Earlier.unzip path dest w)).
      change (Unarch.extract "zip" path dest w)
        with (Some (Unarch.unzip path dest w)).
      intros [= H]. f_equal. by apply earlier_unzip.
    - change (Earlier.extract "tar.gz" path dest w)
        with (Some (Earlier.untar path dest w)).
      rewrite (earlier_untar w path dest _ Hdet). done.
    - change (Earlier.extract "tar.bz2" path dest w)
        with (Some (Earlier.untar path dest w)).
      rewrite (earlier_untar w path dest _ Hdet). done.
    - change (Earlier.extract "tar.xz" path dest w)
        with (Some (Earlier.untar path dest w)).
      rewrite (earlier_untar w path dest _ Hdet). done.
    - done.
    - done. }
  destruct (Earlier.extract tag path dest w) as [[w' [e |]] |]; try done.
  intros [= <-]. rewrite (Hsame w' eq_refl). by eexists.
Qed.

End Listings.

(** ** The entries of a zip archive *)

Section ZipEntries.

Import Os.

Context {L : Libraries}.

Implicit Types (w : World) (k : rpath).

(** X19. A directory of a zip archive is never an error for [unzip], and
    a second run of it changes nothing.  In a well-formed tree where no
    regular file lies at the place or above it, the place and all that
    lies above it are directories afterwards, and what was there stays. *)
Theorem zip_directory_entry (dest : string) (f : Zip.File) w :
  IsDir (Zip.Mode f) = true ->
  (Unarch.unzip_file dest f w).2 = None /\
  Unarch.unzip_file dest f (Unarch.unzip_file dest f w).1 = Unarch.unzip_file dest f w /\
  (forall k,
     resolve (Filepath.Join [dest; Zip.Name f]) = Some k ->
     well_formed w -> clear_above w k ->
     (forall m d, stat w k <> Some (Regular m d)) ->
     well_formed (Unarch.unzip_file dest f w).1 /\
     (forall p, p `prefix_of` k.2 -> is_dir (Unarch.unzip_file dest f w).1 (k.1, p)) /\
     (forall k' n, stat w k' = Some n ->
                   stat (Unarch.unzip_file dest f w).1 k' = Some n)).
Proof.
  intros Hdir. unfold Unarch.unzip_file. rewrite Hdir. cbn [fst snd].
  split; [done |]. split; [by rewrite MkdirAll_again |].
  intros k Hk Hwf Hclear Hfree.
  destruct (make_directory (Filepath.Join [dest; Zip.Name f]) ModePerm w k Hk Hwf)
    as (w' & Hmk & Hwf' & Hdirs & _ & Hkeep).
  { intros p m d Hp. destruct (decide (p = k.2)) as [-> | Hne].
    - destruct k. apply Hfree.
    - by apply Hclear. }
  by rewrite Hmk.
Qed.

(** X20. A file of a zip archive whose content opens, in a well-formed
    tree where no regular file lies above the place and the place is no
    directory: [unzip] returns what the copy returns, the directory of
    the file is made, the file holds the bytes copied, and every other
    file and directory is as it was. *)
Theorem zip_file_entry (dest : string) (f : Zip.File)
    (rc : list byte * option error) w k :
  IsDir (Zip.Mode f) = false -> Zip.Open f = inl rc ->
  resolve (Filepath.Join [dest; Zip.Name f]) = Some k ->
  well_formed w -> clear_above w k -> ~ is_dir w k ->
  exists w' m,
    Unarch.unzip_file dest f w = (w', rc.2) /\ well_formed w' /\
    is_dir w' (parent k) /\ stat w' k = Some (Regular m rc.1) /\
    (forall k' n, k' <> k -> stat w k' = Some n -> stat w' k' = Some n).
Proof.
  intros Hfile Hrc Hk Hwf Hclear Hnot.
  pose proof (not_dir_not_anchor _ _ Hnot) as Hne.
  destruct (put_file dest (Zip.Name f) (Zip.Mode f) rc w k Hk Hwf Hclear Hnot)
    as (w1 & m & Hmk & Hopen & Hcopy & Hpar & Hwf1 & Hwf' & Hkeep & _ & _).
  exists (with_tree w1 (<[k := Regular m rc.1]> (tree w1))), m.
  unfold Unarch.unzip_file. rewrite Hfile, Hmk. cbn [fst]. rewrite Hopen, Hrc, Hcopy.
  split; [done |]. split; [done |]. split; [| split].
  - destruct Hpar as [m' Hm']. exists m'. rewrite stat_insert_ne; [done |].
    intros E. apply Hnot. exists m'. rewrite E in Hm' at 1.
    destruct (MkdirAll_spec _ _ _ _ _ _ (resolve_Dir_Join _ _ Hk) Hmk) as (Hst & _).
    destruct (Hst k) as [H | (_ & _ & _ & H4)]; [congruence |].
    cbn in H4. apply prefix_removelast in H4 as [_ H4]. by destruct (H4 Hne).
  - by apply stat_insert_eq.
  - intros k' n Hk' Hn. rewrite stat_insert_ne by done. by apply Hkeep.
Qed.

Lemma MkdirAll_on_file (name : string) (perm : Z) w k (m : Z) (d : list byte) :
  resolve name = Some k -> stat w k = Some (Regular m d) ->
  MkdirAll name perm w = (w, Some (PathError "mkdir" name ENOTDIR)).
Proof.
  intros Hk Hst. unfold MkdirAll. rewrite Hk.
  assert (stat w (k.1, rev (rev k.2)) = Some (Regular m d)) as Hst'
    by (rewrite rev_involutive; by destruct k).
  destruct (rev k.2); cbn [mkdir_all]; by rewrite Hst'.
Qed.

(** X21. A regular file where the directory of an entry should be: the
    file of the entry is not written and the world stays as it is.  The
    second listing drops the error of [MkdirAll] and fails on the open
    of the file, in [untar] and in [unzip]; the [unzip] of the first
    listing returns the error of [MkdirAll]. *)
Theorem file_in_the_way (dest name : string) w k (m : Z) (d : list byte) :
  resolve (Filepath.Join [dest; name]) = Some k ->
  stat w k = None -> stat w (parent k) = Some (Regular m d) ->
  (forall mode body,
     Unarch.untar_entry dest (Tar.mkHeader name Tar.TypeReg mode) body w =
       (w, Some (PathError "open" (Filepath.Join [dest; name]) ENOTDIR))) /\
  (forall mode content, IsDir mode = false ->
     Unarch.unzip_file dest (Zip.mkFile name mode content) w =
       (w, Some (PathError "open" (Filepath.Join [dest; name]) ENOTDIR)) /\
     Earlier.unzip_file dest (Zip.mkFile name mode content) w =
       (w, Some (PathError "mkdir"
                   (Filepath.Dir (Filepath.Join [dest; name])) ENOTDIR))).
Proof.
  intros Hk Hst Hpar.
  pose proof (MkdirAll_on_file (Filepath.Dir (Filepath.Join [dest; name])) ModePerm
                w (parent k) m d (resolve_Dir_Join _ _ Hk) Hpar) as Hmk.
  assert (forall perm, OpenFile (Filepath.Join [dest; name]) perm w =
            (w, inr (PathError "open" (Filepath.Join [dest; name]) ENOTDIR))) as Hopen.
  { intros perm. unfold OpenFile. by rewrite Hk, Hst, Hpar. }
  split.
  - intros mode body. rewrite untar_entry_reg by done. cbn zeta.
    cbn [Tar.Name]. unfold Create. rewrite Hmk. cbn [fst]. by rewrite Hopen.
  - intros mode content Hmode. unfold Unarch.unzip_file, Earlier.unzip_file.
    cbn [Zip.Mode Zip.Name]. by rewrite Hmode, Hmk, Hopen.
Qed.

End ZipEntries.

(** ** The laws at work in the two small worlds *)

Lemma bare_regular_file (name : string) (mode : Z) (data : list byte) :
  Os.tree Bare.world !! Scenario.here [name] = Some (Os.Regular mode data) ->
  Os.resolve name = Some (Scenario.here [name]) ->
  Spec.regular_file Bare.world name data.
Proof. intros H1 H2. by exists (Scenario.here [name]), mode. Qed.

Lemma bare_well_formed : Os.well_formed Bare.world.
Proof. apply well_formedb_true. by vm_compute. Qed.

(** [out] is a directory: it is not extracted. *)
Lemma only_regular_files_are_extracted_witness :
  exists op e,
    Unarch.main (L := Scenario.libraries) ["unarch"; "out"; "dest"] Scenario.world =
      (Os.Println ("error detecting archive type: "
                   +:+ Os.Error (Os.PathError op "out" e)) Scenario.world, 1%Z).
Proof.
  apply (only_regular_files_are_extracted (L := Scenario.libraries)).
  intros data (k & m & Hk & Hst). vm_compute in Hk. injection Hk as <-.
  vm_compute in Hst. discriminate Hst.
Defined.

(** [data.xz] is an [xz] by its name and does not start as an xz file. *)
Lemma single_file_never_has_its_signature_witness :
  Filepath.Ext "data.xz" = "." +:+ "xz" /\
  exists data,
    Spec.regular_file Scenario.world "data.xz" data /\
    Bytes.HasPrefix data [xfd; x37; x7a; x58; x5a; x00] = false.
Proof.
  apply (single_file_never_has_its_signature Scenario.world "data.xz" "xz").
  - cbn. tauto.
  - by vm_compute.
Defined.

(** The same file in two worlds. *)
Lemma detect_reads_sixteen_bytes_witness :
  Unarch.detectArchiveType Scenario.world "x.gz" =
  Unarch.detectArchiveType Bare.world "x.gz".
Proof.
  apply (detect_reads_sixteen_bytes _ _ _ _ [x1f; x8b; x08; x00] [x1f; x8b; x08; x00]).
  - apply (scenario_regular_file "x.gz" 420); by vm_compute.
  - apply (bare_regular_file "x.gz" 420); by vm_compute.
  - reflexivity.
  - reflexivity.
Defined.

(** [a.tar] has the tag [tar] by its name and is read with no filter. *)
Lemma tag_names_the_filter_witness :
  Unarch.untar_filter (Bytes.fill 6 [x61; x2f; x62]) = Plain /\
  Unarch.extract (L := Scenario.libraries) "tar" "a.tar" "out" Scenario.world =
    Some match Unarch.NewReader (L := Scenario.libraries) Plain [x61; x2f; x62] with
         | Some err => (Scenario.world, Some err)
         | None =>
             Unarch.untar_loop "out"
               (tar_NewReader (Libraries := Scenario.libraries) Plain [x61; x2f; x62])
               Scenario.world
         end.
Proof.
  apply (tag_names_the_filter (L := Scenario.libraries) Scenario.world "a.tar" "out").
  - cbn. tauto.
  - by vm_compute.
  - apply (scenario_regular_file "a.tar" 420); by vm_compute.
Defined.

(** A directory and a symbolic link. *)
Lemma directories_only_archive_witness :
  let s := Tar.Entry (Tar.mkHeader "d" Tar.TypeDir 493) ([], None)
             (Tar.Entry (Tar.mkHeader "d/l" x32 511) ([], None) Tar.AtEOF) in
  (Unarch.untar_loop "out" s Scenario.world).2 = Laws.ending s /\
  (forall k,
     Os.stat (Unarch.untar_loop "out" s Scenario.world).1 k = Os.stat Scenario.world k \/
     (Os.stat Scenario.world k = None /\
      Os.is_dir (Unarch.untar_loop "out" s Scenario.world).1 k)) /\
  (s = Tar.AtEOF -> Unarch.untar_loop "out" s Scenario.world = (Scenario.world, None)).
Proof.
  intros s. apply (directories_only_archive "out" s Scenario.world). reflexivity.
Defined.

(** [d/f] extracted to [out], twice. *)
Lemma regular_entry_again_witness :
  exists w',
    Unarch.untar_entry "out" (Tar.mkHeader "d/f" Tar.TypeReg 384)
      (Scenario.payload, None) Scenario.world = (w', None) /\
    Unarch.untar_entry "out" (Tar.mkHeader "d/f" Tar.TypeReg 384)
      (Scenario.payload, None) w' = (w', None).
Proof.
  apply (regular_entry_again "out" (Tar.mkHeader "d/f" Tar.TypeReg 384)
           (Scenario.payload, None) Scenario.world (false, ["out"; "d"; "f"])).
  - reflexivity.
  - by vm_compute.
  - apply scenario_well_formed.
  - apply clear_aboveb_true. by vm_compute.
  - apply is_dirb_false. by vm_compute.
Defined.

(** The file [out/old] of the second world, under an entry that does not
    open: it is left empty, with its mode. *)
Lemma unopened_zip_entry_leaves_empty_file_witness :
  exists w' m,
    Unarch.unzip_file "out"
      (Zip.mkFile "old" 420 (inr (Os.errorString "zip: checksum error")))
      Bare.world = (w', Some (Os.errorString "zip: checksum error")) /\
    Os.stat w' (false, ["out"; "old"]) = Some (Os.Regular m []) /\
    (forall m0 d, Os.stat Bare.world (false, ["out"; "old"]) = Some (Os.Regular m0 d) ->
                  m = m0).
Proof.
  apply (unopened_zip_entry_leaves_empty_file "out"
           (Zip.mkFile "old" 420 (inr (Os.errorString "zip: checksum error")))
           (Os.errorString "zip: checksum error") Bare.world (false, ["out"; "old"])).
  - reflexivity.
  - reflexivity.
  - by vm_compute.
  - apply bare_well_formed.
  - apply clear_aboveb_true. by vm_compute.
  - apply is_dirb_false. by vm_compute.
Defined.

(** There is no directory [missing], and [blob.bin] is a regular file. *)
Lemma single_file_needs_its_directory_witness :
  Unarch.extractSingleFile (L := Scenario.libraries)
    "data.xz" "missing" "xz" Scenario.world =
    (Scenario.world, Some (Os.PathError "open" "missing/data.xz" Os.ENOENT)) /\
  Unarch.extractSingleFile (L := Scenario.libraries)
    "data.xz" "blob.bin/sub" "xz" Scenario.world =
    (Scenario.world, Some (Os.PathError "open" "blob.bin/sub/data.xz" Os.ENOTDIR)).
Proof.
  split.
  - destruct (single_file_needs_its_directory (L := Scenario.libraries)
                "data.xz" "missing" "xz" Scenario.world
                (false, ["missing"; "data.xz"]))
      as (errno & Hrun & Hclear & _).
    + cbn. tauto.
    + by vm_compute.
    + by vm_compute.
    + by vm_compute.
    + rewrite Hrun, Hclear; [reflexivity |].
      apply clear_aboveb_true. by vm_compute.
  - destruct (single_file_needs_its_directory (L := Scenario.libraries)
                "data.xz" "blob.bin/sub" "xz" Scenario.world
                (false, ["blob.bin"; "sub"; "data.xz"]))
      as (errno & Hrun & _ & Hfile).
    + cbn. tauto.
    + by vm_compute.
    + by vm_compute.
    + by vm_compute.
    + rewrite Hrun.
      rewrite (Hfile scenario_well_formed ["blob.bin"] 420%Z [xde; xad; xbe; xef]);
        [reflexivity | by exists ["sub"; "data.xz"] | by vm_compute].
Defined.

(** [x.gz] with libraries that refuse the gzip header. *)
Lemma refused_gzip_header_witness :
  Unarch.main (L := Bare.libraries) ["unarch"; "x.gz"; "out"] Bare.world =
  (Os.Println "extraction error: gzip: invalid header" Bare.world, 1%Z).
Proof.
  apply (refused_gzip_header (L := Bare.libraries) "unarch" "x.gz" "out" Bare.world
           [x1f; x8b; x08; x00] (Os.errorString "gzip: invalid header")).
  - apply (bare_regular_file "x.gz" 420); by vm_compute.
  - reflexivity.
  - reflexivity.
Defined.

(** [a.rar] with a tool that fails. *)
Lemma archiver_run_witness :
  Unarch.main (L := Bare.libraries) ["unarch"; "a.rar"; "out"] Bare.world =
  ({| Os.tree := Os.tree Bare.world; Os.umask := 18;
      Os.spawned := [("7z", ["x"; "a.rar"; "-oout"; "-y"])];
      Os.terminal := [Os.Child []; Os.Line "extraction error: exit status 2"] |},
   1%Z).
Proof.
  apply (archiver_run (L := Bare.libraries) "unarch" "a.rar" "out" Bare.world
           [x52; x61; x72; x21; x1a; x07] [x52; x61; x72; x21]).
  - cbn. tauto.
  - apply (bare_regular_file "a.rar" 420); by vm_compute.
  - reflexivity.
Defined.

(** [a.zip] with a reader that finds no file. *)
Lemma zip_reader_outcomes_witness :
  Unarch.main (L := Bare.libraries) ["unarch"; "a.zip"; "out"] Bare.world =
  (Os.Println "extraction complete." Bare.world, 0%Z).
Proof.
  destruct (zip_reader_outcomes (L := Bare.libraries) "unarch" "a.zip" "out"
              Bare.world [x50; x4b; x03; x04]) as [_ H].
  - apply (bare_regular_file "a.zip" 420); by vm_compute.
  - reflexivity.
  - apply H. reflexivity.
Defined.

(** Archives that hold [/etc/passwd], extracted into [out]: the file is
    written at [out/etc/passwd], and nothing changes outside [out]. *)
Example absolute_name_lands_inside :
  Os.stat (Unarch.untar (L := Absolute.libraries) "a.tar" "out" Scenario.world).1
    (false, ["out"; "etc"; "passwd"]) = Some (Os.Regular 420 Scenario.payload) /\
  Os.stat (Unarch.unzip (L := Absolute.libraries) "a.zip" "out" Scenario.world).1
    (false, ["out"; "etc"; "passwd"]) = Some (Os.Regular 384 Scenario.payload) /\
  Os.stat (Unarch.untar (L := Absolute.libraries) "a.tar" "out" Scenario.world).1
    (true, ["etc"; "passwd"]) = None.
Proof. by vm_compute. Qed.


(** The zip archive of the first world, in both listings. *)
Lemma earlier_runs_kept_witness :
  exists w2,
    Unarch.main (L := Scenario.libraries) ["unarch"; "a.zip"; "out"] Scenario.world
      = (w2, 0%Z) /\
    Os.tree w2 =
      Os.tree (Earlier.main (L := Scenario.libraries)
                 ["unarch"; "a.zip"; "out"] Scenario.world).1 /\
    Os.spawned w2 =
      Os.spawned (Earlier.main (L := Scenario.libraries)
                    ["unarch"; "a.zip"; "out"] Scenario.world).1 /\
    Os.umask w2 =
      Os.umask (Earlier.main (L := Scenario.libraries)
                  ["unarch"; "a.zip"; "out"] Scenario.world).1.
Proof.
  apply (earlier_runs_kept (L := Scenario.libraries)). by vm_compute.
Defined.

(** The directory [d/] of a zip archive, made under [out]. *)
Lemma zip_directory_entry_witness :
  let f := Zip.mkFile "d/" (Z.lor Os.ModeDir 493) (inl ([], None)) in
  (Unarch.unzip_file "out" f Scenario.world).2 = None /\
  Unarch.unzip_file "out" f (Unarch.unzip_file "out" f Scenario.world).1 =
    Unarch.unzip_file "out" f Scenario.world /\
  Os.is_dir (Unarch.unzip_file "out" f Scenario.world).1 (false, ["out"; "d"]).
Proof.
  intros f.
  destruct (zip_directory_entry "out" f Scenario.world eq_refl) as (H1 & H2 & H3).
  split; [done |]. split; [done |].
  destruct (H3 (false, ["out"; "d"])) as (_ & Hdirs & _).
  - by vm_compute.
  - apply scenario_well_formed.
  - apply clear_aboveb_true. by vm_compute.
  - intros m d H. vm_compute in H. discriminate H.
  - apply (Hdirs ["out"; "d"]). done.
Defined.

(** The file [d/f] of a zip archive, written under [out]. *)
Lemma zip_file_entry_witness :
  exists w' m,
    Unarch.unzip_file "out" (Zip.mkFile "d/f" 384 (inl (Scenario.payload, None)))
      Scenario.world = (w', None) /\
    Os.well_formed w' /\ Os.is_dir w' (false, ["out"; "d"]) /\
    Os.stat w' (false, ["out"; "d"; "f"]) = Some (Os.Regular m Scenario.payload) /\
    (forall k' n, k' <> (false, ["out"; "d"; "f"]) ->
                  Os.stat Scenario.world k' = Some n -> Os.stat w' k' = Some n).
Proof.
  apply (zip_file_entry "out" (Zip.mkFile "d/f" 384 (inl (Scenario.payload, None)))
           (Scenario.payload, None) Scenario.world (false, ["out"; "d"; "f"])).
  - reflexivity.
  - reflexivity.
  - by vm_compute.
  - apply scenario_well_formed.
  - apply clear_aboveb_true. by vm_compute.
  - apply is_dirb_false. by vm_compute.
Defined.

(** An entry [blob.bin/x]: [blob.bin] is a file. *)
Lemma file_in_the_way_witness :
  Unarch.untar_entry "." (Tar.mkHeader "blob.bin/x" Tar.TypeReg 420)
    (Scenario.payload, None) Scenario.world =
    (Scenario.world, Some (Os.PathError "open" "blob.bin/x" Os.ENOTDIR)) /\
  Earlier.unzip_file "." (Zip.mkFile "blob.bin/x" 420 (inl (Scenario.payload, None)))
    Scenario.world =
    (Scenario.world, Some (Os.PathError "mkdir" "blob.bin" Os.ENOTDIR)).
Proof.
  destruct (file_in_the_way "." "blob.bin/x" Scenario.world
              (false, ["blob.bin"; "x"]) 420 [xde; xad; xbe; xef]) as [H1 H2].
  - by vm_compute.
  - by vm_compute.
  - by vm_compute.
  - split; [apply H1 |]. by destruct (H2 420%Z (inl (Scenario.payload, None)) eq_refl).
Defined.
